(** * Customer-support agent: a shallow embedding of the Python sources

    The development follows the layout of the repository.

    - [PyStr]         the Python string operations the sources rely on
                      ([str.lower], [str.strip], [in], [os.path.splitext]);
    - [RagTracker]    the document change tracker of [rag_system.py]
                      ([get_new_or_modified_documents],
                      [update_document_tracker]);
    - [Runtime]       exceptions, the MySQL store, the retrieval services and
                      the state-and-exception monad the tools run in;
    - [DatabaseUtils] [database_utils.py]: the driver, the SQL statements as
                      functions on tables, and the query functions;
    - [RagSearch]     [rag_search] of [rag_system.py];
    - [AgentTools]    the four tools of [agent_tools.py];
    - [AgentGraph]    the workflow of [agent_graph.py];
    - [Api]           the [/chat] handler of [api.py];
    - [TicketTable]   [init_ticket_db] of [database_utils.py];
    - [Main]          the conversation state and the interaction loop of
                      [main.py];
    - [Frontend]      the prompt handler of [frontend.py].

    The properties follow the definitions, module by module.

    Conventions. Text is [string] over 7-bit ASCII: letter case and white
    space are those of the ASCII range. Output written with [print] is
    modelled for [main.py] only. A Python function that can raise returns an [outcome]; one
    that reads or changes the store, the console or the services lives in
    the monad [M]. *)

From Stdlib Require Import Ascii NArith Decimal DecimalString.
From stdpp Require Import gmap strings list fin_maps.


(* ===================================================================== *)
(** ** Python string operations *)
(* ===================================================================== *)

Module PyStr.

Definition code (c : ascii) : N := N_of_ascii c.

Definition between (lo hi : N) (c : ascii) : bool :=
  ((lo <=? code c) && (code c <=? hi))%N.

(** [str.isspace] on the ASCII range: TAB, LF, VT, FF, CR, the four
    separators 0x1c-0x1f and the blank. *)
Definition is_space (c : ascii) : bool :=
  between 9 13 c || between 28 31 c || (code c =? 32)%N.

Definition is_upper (c : ascii) : bool := between 65 90 c.
Definition is_lower (c : ascii) : bool := between 97 122 c.
Definition is_alpha (c : ascii) : bool := is_upper c || is_lower c.
Definition is_digit (c : ascii) : bool := between 48 57 c.

(** [\w] of the [re] module on the ASCII range. *)
Definition is_word (c : ascii) : bool :=
  is_alpha c || is_digit c || (code c =? 95)%N.

Definition lower_char (c : ascii) : ascii :=
  if is_upper c then ascii_of_N (code c + 32) else c.

Definition upper_char (c : ascii) : ascii :=
  if is_lower c then ascii_of_N (code c - 32) else c.

Fixpoint smap (f : ascii -> ascii) (s : string) : string :=
  match s with
  | EmptyString => EmptyString
  | String c s' => String (f c) (smap f s')
  end.

(** [s.lower()] and [s.upper()]. *)
Definition lower (s : string) : string := smap lower_char s.
Definition upper (s : string) : string := smap upper_char s.

Fixpoint lstrip (s : string) : string :=
  match s with
  | EmptyString => EmptyString
  | String c s' => if is_space c then lstrip s' else s
  end.

(** [rstrip] keeps a character when it is not white space or when
    something survives to its right. *)
Fixpoint rstrip (s : string) : string :=
  match s with
  | EmptyString => EmptyString
  | String c s' =>
      match rstrip s' with
      | EmptyString => if is_space c then EmptyString else String c EmptyString
      | r => String c r
      end
  end.

(** [s.strip()]. *)
Definition strip (s : string) : string := rstrip (lstrip s).

(** [s.startswith(p)]. *)
Fixpoint startswith (p s : string) : bool :=
  match p, s with
  | EmptyString, _ => true
  | String a p', String b s' => Ascii.eqb a b && startswith p' s'
  | String _ _, EmptyString => false
  end.

(** The remainder of [s] after the prefix [p], when [s] starts with [p]. *)
Fixpoint after_prefix (p s : string) : option string :=
  match p, s with
  | EmptyString, _ => Some s
  | String a p', String b s' =>
      if Ascii.eqb a b then after_prefix p' s' else None
  | String _ _, EmptyString => None
  end.

(** [needle in hay]. *)
Fixpoint py_in (needle hay : string) : bool :=
  startswith needle hay ||
  match hay with
  | EmptyString => false
  | String _ hay' => py_in needle hay'
  end.

(** [any(k in s for k in ks)]. *)
Definition any_in (ks : list string) (s : string) : bool :=
  existsb (fun k => py_in k s) ks.

(** [s in ks] for a list of strings. *)
Definition mem (s : string) (ks : list string) : bool :=
  existsb (String.eqb s) ks.

(** Truth value of a string: only the empty string is false. *)
Definition truthy (s : string) : bool :=
  match s with EmptyString => false | _ => true end.

(** [s[:n]]. *)
Fixpoint take (n : nat) (s : string) : string :=
  match n, s with
  | S n', String c s' => String c (take n' s')
  | _, _ => EmptyString
  end.

(** Longest prefix of characters satisfying [p], and what follows it. *)
Fixpoint span (p : ascii -> bool) (s : string) : string * string :=
  match s with
  | EmptyString => (EmptyString, EmptyString)
  | String c s' =>
      if p c then let '(a, b) := span p s' in (String c a, b)
      else (EmptyString, s)
  end.

(** The maximal runs of characters satisfying [keep], left to right. *)
Fixpoint runs_aux (keep : ascii -> bool) (cur : string) (s : string)
    : list string :=
match s with
| EmptyString => if truthy cur then [cur] else []
| String c s' =>
    if keep c
    then runs_aux keep (cur +:+ String c EmptyString) s'
    else (if truthy cur then [cur] else []) ++ runs_aux keep EmptyString s'
end.
Definition runs (keep : ascii -> bool) (s : string) : list string :=
runs_aux keep EmptyString s.

(** [s.split()]: the maximal runs of non-blank characters. *)
Definition split_ws (s : string) : list string :=
runs (fun c => negb (is_space c)) s.

Fixpoint forallb_str (p : ascii -> bool) (s : string) : bool :=
match s with
| EmptyString => true
| String c s' => p c && forallb_str p s'
end.

(** The last character of a non-empty string, as a string. *)
Fixpoint last_char (s : string) : string :=
match s with
| EmptyString => EmptyString
| String c EmptyString => s
| String _ s' => last_char s'
end.

(** [sep.join(xs)]. *)
Fixpoint join (sep : string) (xs : list string) : string :=
  match xs with
  | [] => EmptyString
  | [x] => x
  | x :: rest => x +:+ sep +:+ join sep rest
  end.

(** [str(n)] for a non-negative integer. *)
Definition str_of_nat (n : nat) : string :=
  NilZero.string_of_uint (Nat.to_uint n).

Fixpoint digits_only (s : string) : bool :=
match s with
| EmptyString => true
| String c s' => is_digit c && digits_only s'
end.

(** [os.path.splitext(name)[1]] for a bare file name: the suffix that
    starts at the last dot, unless only dots precede that dot. *)
Fixpoint all_dots (s : string) : bool :=
  match s with
  | EmptyString => true
  | String c s' => (code c =? 46)%N && all_dots s'
  end.

Fixpoint has_dot (s : string) : bool :=
  match s with
  | EmptyString => false
  | String c s' => (code c =? 46)%N || has_dot s'
  end.

(** [ext_from seen s]: [seen] tells whether a character other than a dot
    has been passed. *)
Fixpoint ext_from (seen : bool) (s : string) : string :=
  match s with
  | EmptyString => EmptyString
  | String c s' =>
      if (code c =? 46)%N then
        if seen && negb (has_dot s') then s else ext_from seen s'
      else ext_from true s'
  end.

Definition splitext_ext (name : string) : string := ext_from false name.

(** A text that is already in lower case and neither starts nor ends with
    a blank. *)
(** [list(set(xs))]: the distinct elements of [xs] in the order in which
    the hash table of the set holds them. That order depends on the hash
    seed of the process; [seed] selects the order: the element at position
    [seed mod n] of the [n] elements comes first, and [seed / n] selects
    the order of the others. Every order is that of some seed; the seed
    [0] gives the order of first occurrence. *)
Fixpoint arrange (fuel seed : nat) (l : list string) : list string :=
match fuel with
| 0 => []
| S fuel' =>
    let i := seed mod length l in
    match l !! i with
    | Some x => x :: arrange fuel' (seed / length l) (delete i l)
    | None => []
    end
end.

Definition list_of_set (seed : nat) (xs : list string) : list string :=
let distinct := remove_dups xs in
arrange (length distinct) seed distinct.

Definition first_is_space (s : string) : bool :=
match s with
| String c _ => is_space c
| EmptyString => false
end.

Definition plain_phrase (p : string) : bool :=
truthy p && String.eqb (lower p) p
&& negb (first_is_space p) && negb (first_is_space (last_char p)).

End PyStr.

(* ===================================================================== *)
(** ** rag_system.py: the document change tracker *)
(* ===================================================================== *)

Module RagTracker.
Import PyStr.

(** What [os.listdir(DOCUMENTS_DIR)] can meet under a name: a
    sub-directory, or a regular file with its bytes; [openable = false]
    is a file that [open(filepath, "rb")] refuses. *)
Inductive dir_entry :=
| Subdir
| RegularFile (data : string) (openable : bool).

(** One value of the tracker dictionary. *)
Record tracker_entry := {
  te_hash : string;
  te_filename : string;
  te_last_processed : string;
  te_size : nat
}.

(** [chroma_store/document_tracker.json]: absent, not parseable, or the
    JSON image of a dictionary. *)
Inductive tracker_file :=
| NoTrackerFile
| BrokenTrackerFile
| TrackerJson (t : gmap string tracker_entry).

(** The part of the file system the tracker code reads and writes. A
    directory maps each name it holds to one entry. *)
Record filesystem := {
  documents : option (gmap string dir_entry);
  tracker_json : tracker_file
}.

Definition DOCUMENTS_DIR : string := "documents".

Definition supported_extensions : list string :=
  [".txt"; ".pdf"; ".docx"; ".doc"].

(** [os.path.join(DOCUMENTS_DIR, filename)]. *)
Definition path_join (dir filename : string) : string :=
  dir +:+ "/" +:+ filename.

Definition isfile (e : dir_entry) : bool :=
  match e with RegularFile _ _ => true | Subdir => false end.

Definition getsize (e : dir_entry) : nat :=
  match e with RegularFile data _ => String.length data | Subdir => 0 end.

(** [f"{filename}_{os.path.getsize(filepath)}"]. *)
Definition file_key (filename : string) (size : nat) : string :=
  filename +:+ "_" +:+ str_of_nat size.

Definition load_document_tracker (fs : filesystem) : gmap string tracker_entry :=
  match tracker_json fs with
  | TrackerJson t => t
  | NoTrackerFile | BrokenTrackerFile => ∅
  end.

Definition save_document_tracker
    (t : gmap string tracker_entry) (fs : filesystem) : filesystem :=
  {| documents := documents fs; tracker_json := TrackerJson t |}.

Section WithHash.
(** The digest [hashlib.md5(...).hexdigest()] of a byte string, and the
    text [datetime.now().isoformat()] yields when the entry of a given
    file is written. *)
Variable md5 : string -> string.
Variable now_isoformat : string -> string.

(** [get_file_hash]: [None] when reading raises. *)
Definition get_file_hash (e : dir_entry) : option string :=
  match e with
  | RegularFile data true => Some (md5 data)
  | _ => None
  end.

(** Body of the [for filename in os.listdir(DOCUMENTS_DIR)] loop of
    [get_new_or_modified_documents]. *)
Definition scan_step (tracker : gmap string tracker_entry)
    (documents_to_process : list string) (item : string * dir_entry)
    : list string :=
  let '(filename, e) := item in
  let filepath := path_join DOCUMENTS_DIR filename in
  let ext := lower (splitext_ext filename) in
  if negb (mem ext supported_extensions) || negb (isfile e)
  then documents_to_process
  else
    match get_file_hash e with
    | None => documents_to_process
    | Some current_hash =>
        if negb (truthy current_hash) then documents_to_process
        else
          let k := file_key filename (getsize e) in
          match tracker !! k with
          | None => documents_to_process ++ [filepath]
          | Some te =>
              if negb (String.eqb (te_hash te) current_hash)
              then documents_to_process ++ [filepath]
              else documents_to_process
          end
    end.

(** Returns the list of paths and the file system, in which the
    documents directory has been created when it was missing. *)
Definition get_new_or_modified_documents (fs : filesystem)
    : list string * filesystem :=
  let tracker := load_document_tracker fs in
  match documents fs with
  | None =>
      ([], {| documents := Some ∅; tracker_json := tracker_json fs |})
  | Some d => (foldl (scan_step tracker) [] (map_to_list d), fs)
  end.

(** Body of the loop of [update_document_tracker]. *)
Definition update_step (tracker : gmap string tracker_entry)
    (item : string * dir_entry) : gmap string tracker_entry :=
  let '(filename, e) := item in
  let ext := lower (splitext_ext filename) in
  if negb (mem ext supported_extensions) || negb (isfile e)
  then tracker
  else
    match get_file_hash e with
    | None => tracker
    | Some file_hash =>
        if truthy file_hash then
          <[ file_key filename (getsize e) :=
               {| te_hash := file_hash;
                  te_filename := filename;
                  te_last_processed := now_isoformat filename;
                  te_size := getsize e |} ]> tracker
        else tracker
    end.

Definition update_document_tracker (fs : filesystem) : filesystem :=
  let tracker := load_document_tracker fs in
  match documents fs with
  | None => fs
  | Some d =>
      save_document_tracker (foldl update_step tracker (map_to_list d)) fs
  end.

(** A change of the documents between two runs: the tracker file stays. *)
Definition with_documents (d : gmap string dir_entry) (fs : filesystem)
    : filesystem :=
  {| documents := Some d; tracker_json := tracker_json fs |}.

(** The fingerprint an entry is scanned with: the name passes the
    extension filter, the entry is a readable regular file and its
    digest is not the empty string. *)
Definition fingerprint (filename : string) (e : dir_entry)
    : option (string * nat) :=
  if negb (mem (lower (splitext_ext filename)) supported_extensions)
     || negb (isfile e)
  then None
  else match get_file_hash e with
       | Some h => if truthy h then Some (h, getsize e) else None
       | None => None
       end.

(** The dictionary value [update_document_tracker] writes for a file. *)
Definition written (filename h : string) (size : nat) : tracker_entry :=
{| te_hash := h; te_filename := filename;
   te_last_processed := now_isoformat filename; te_size := size |}.

(** Whether a scanned entry is appended to [documents_to_process]: its key
    is absent from the tracker or holds another digest. *)
Definition marks (tracker : gmap string tracker_entry)
    (filename : string) (e : dir_entry) : bool :=
match fingerprint filename e with
| None => false
| Some (h, size) =>
    match tracker !! file_key filename size with
    | None => true
    | Some te => negb (String.eqb (te_hash te) h)
    end
end.

End WithHash.
End RagTracker.

(* ===================================================================== *)
(** ** Exceptions, the outside world and the monad of the tools *)
(* ===================================================================== *)

Module Runtime.

(** The exceptions the sources meet. [str(e)] of each is its message. *)
Inductive exn :=
| ConnectionError (msg : string)
| DatabaseError (msg : string)
| ServiceError (msg : string)
| EOFError
| IndexError (msg : string)
| TypeError (msg : string)
| ValueError (msg : string).

Definition str_of_exn (e : exn) : string :=
match e with
| ConnectionError msg | DatabaseError msg | ServiceError msg
| IndexError msg | TypeError msg | ValueError msg => msg
| EOFError => "EOF when reading a line"
end.

(** A call either returns a value or raises. *)
Inductive outcome (A : Type) :=
| Return (a : A)
| Raise (e : exn).
Arguments Return {A} a.
Arguments Raise {A} e.

(** *** The MySQL store *)

Record ticket := {
  t_id : nat;
  t_ticket_id : string;
  t_user_name : string;
  t_issue : string;
  t_response : option string;
  t_status : string;
  t_created_at : N
}.

Record team_row := { tm_name : string; tm_bio : string }.
Record faq_row := { fq_question : string; fq_answer : string }.

(** A table is [None] when it does not exist in the schema. The sources
    create their table without a collation, so text is compared as the
    server is configured: [collation a b] tells whether the server takes
    two different texts for equal (under the defaults of MySQL and MariaDB,
    texts that differ in letter case only; under the older defaults also
    texts that differ in trailing blanks; under a binary collation, none). *)
Record database := {
  tickets : option (list ticket);
  teams : option (list team_row);
  faq : option (list faq_row);
  current_timestamp : N;
  collation : string -> string -> bool
}.

(** [column = %s] in a [WHERE] clause, and the test behind [UNIQUE]: a text
    equals itself under every collation. *)
Definition sql_eq (d : database) (column value : string) : bool :=
String.eqb column value || collation d column value.

(** *** The retrieval services behind [rag_search] *)

Record rag_services := {
  get_vectorstore : outcome unit;
  collection_count : outcome nat;
  chat_groq : outcome unit;
  retriever_invoke : string -> outcome (list string);
  llm_invoke : string -> string -> outcome string
}.

(** *** The world a tool call runs in

    [db_faults] schedules the failures of the database driver: each
    connection attempt, statement and commit consumes one flag, and raises
    when the flag is set; an exhausted schedule means no further failure.
    [stdin] holds the lines the console will deliver to [input()].
    [uuid4_hex k] is the text of [uuid.uuid4().hex] at its [k]-th call.
    [hash_seed] stands for the seed of the string hash of the process, on
    which the order of iteration over a [set] of strings depends. *)
Record world := {
  db : database;
  db_faults : list bool;
  stdin : list string;
  uuid4_hex : nat -> string;
  uuid_calls : nat;
  rag : rag_services;
  hash_seed : nat
}.

Definition set_db (d : database) (w : world) : world :=
{| db := d; db_faults := db_faults w; stdin := stdin w;
   uuid4_hex := uuid4_hex w; uuid_calls := uuid_calls w; rag := rag w;
   hash_seed := hash_seed w |}.

Definition set_db_faults (fs : list bool) (w : world) : world :=
{| db := db w; db_faults := fs; stdin := stdin w;
   uuid4_hex := uuid4_hex w; uuid_calls := uuid_calls w; rag := rag w;
   hash_seed := hash_seed w |}.

Definition set_stdin (ls : list string) (w : world) : world :=
{| db := db w; db_faults := db_faults w; stdin := ls;
   uuid4_hex := uuid4_hex w; uuid_calls := uuid_calls w; rag := rag w;
   hash_seed := hash_seed w |}.

Definition set_uuid_calls (n : nat) (w : world) : world :=
{| db := db w; db_faults := db_faults w; stdin := stdin w;
   uuid4_hex := uuid4_hex w; uuid_calls := n; rag := rag w;
   hash_seed := hash_seed w |}.

Definition set_tickets (ts : list ticket) (d : database) : database :=
{| tickets := Some ts; teams := teams d; faq := faq d;
   current_timestamp := current_timestamp d; collation := collation d |}.

(** *** State and exceptions *)

Definition M (A : Type) : Type := world -> outcome A * world.

Definition ret {A} (a : A) : M A := fun w => (Return a, w).

Definition raise {A} (e : exn) : M A := fun w => (Raise e, w).

Definition bind {A B} (m : M A) (k : A -> M B) : M B :=
fun w =>
  match m w with
  | (Return a, w') => k a w'
  | (Raise e, w') => (Raise e, w')
  end.

(** [try: body except Exception as e: handler]. *)
Definition try_except {A} (body : M A) (handler : exn -> M A) : M A :=
fun w =>
  match body w with
  | (Return a, w') => (Return a, w')
  | (Raise e, w') => handler e w'
  end.

(** A call that cannot raise by itself. *)
Definition lift {A} (o : outcome A) : M A := fun w => (o, w).

Definition get_world : M world := fun w => (Return w, w).

(** [m] hands back a value from every world: it never raises. *)
Definition returns {A} (m : M A) : Prop :=
forall w, exists a w', m w = (Return a, w').

End Runtime.

Declare Scope py_scope.
Delimit Scope py_scope with py.
Notation "x <- m ;; k" := (Runtime.bind m (fun x => k))
  (at level 100, m at next level, right associativity) : py_scope.
Notation "m ;;; k" := (Runtime.bind m (fun _ => k))
  (at level 100, right associativity) : py_scope.

(* ===================================================================== *)
(** ** database_utils.py *)
(* ===================================================================== *)

Module DatabaseUtils.
Import PyStr Runtime.
Local Open Scope py_scope.

(** *** The driver

    Each of [pymysql.connect], [cursor.execute] and [conn.commit] takes the
    next flag of the fault schedule. [conn.close()] in the [finally] blocks
    neither fails nor changes the store and is left out. *)

Definition next_fault : M bool :=
fun w =>
  match db_faults w with
  | [] => (Return false, w)
  | b :: rest => (Return b, set_db_faults rest w)
  end.

(** [get_db_connection]: every failure of [pymysql.connect] is re-raised as
    a [ConnectionError]. *)
Definition get_db_connection : M unit :=
  failed <- next_fault ;;
  if failed
  then raise (ConnectionError "Failed to connect to database: connection refused")
  else ret tt.

(** [cursor.execute] of a statement that only reads: [run] evaluates the
    statement on the store. *)
Definition cursor_execute {A} (run : database -> outcome A) : M A :=
  failed <- next_fault ;;
  if failed then raise (DatabaseError "Lost connection to MySQL server during query")
  else w <- get_world ;; lift (run (db w)).

(** [conn.commit()] of a prepared change of the store. *)
Definition conn_commit (d : database) : M unit :=
  failed <- next_fault ;;
  if failed then raise (DatabaseError "Lost connection to MySQL server during query")
  else fun w => (Return tt, set_db d w).

Definition no_such_table {A} (name : string) : outcome A :=
Raise (DatabaseError ("Table 'ai_agent." +:+ name +:+ "' doesn't exist")).

(** *** Ordering and patterns of the SQL statements *)

Section Sorting.
Context {A : Type} (le : A -> A -> bool).

Fixpoint insert_sorted (x : A) (l : list A) : list A :=
match l with
| [] => [x]
| y :: l' => if le x y then x :: l else y :: insert_sorted x l'
end.

(** [ORDER BY]: rows that compare equal keep the order of the table. *)
Definition order_by (l : list A) : list A := foldr insert_sorted [] l.
End Sorting.

(** [text LIKE pattern] with the wildcards [%] and [_] and the escape
    character backslash. *)
Fixpoint sql_like (pattern : string) : string -> bool :=
match pattern with
| EmptyString => fun text => negb (truthy text)
| String c p' =>
    if (code c =? 37)%N then
      fix star (text : string) : bool :=
        sql_like p' text ||
        match text with
        | EmptyString => false
        | String _ text' => star text'
        end
    else if (code c =? 95)%N then
      fun text =>
        match text with
        | String _ text' => sql_like p' text'
        | EmptyString => false
        end
    else if (code c =? 92)%N then
      match p' with
      | String e p'' =>
          fun text =>
            match text with
            | String x text' => Ascii.eqb e x && sql_like p'' text'
            | EmptyString => false
            end
      | EmptyString => fun text => String.eqb text (String c EmptyString)
      end
    else
      fun text =>
        match text with
        | String x text' => Ascii.eqb c x && sql_like p' text'
        | EmptyString => false
        end
end.

(** [f"%{s}%"]. *)
Definition percent (s : string) : string := "%" +:+ s +:+ "%".

(** A value that does not fit a column of the given width. *)
Definition too_long (width : N) (s : string) : bool :=
(width <? N.of_nat (String.length s))%N.

(** *** Tickets *)

(** [SELECT response FROM tickets WHERE issue = %s AND response IS NOT NULL
    ORDER BY created_at DESC LIMIT 1], then [fetchone()]: the response of
    the selected row, if a row is selected. The issue is compared under
    the collation of the server. *)
Definition select_ticket_answer (question : string) (d : database)
    : outcome (option string) :=
match tickets d with
| None => no_such_table "tickets"
| Some rows =>
    let answered :=
      List.filter (fun t => sql_eq d (t_issue t) question
                            && bool_decide (is_Some (t_response t))) rows in
    let newest_first :=
      order_by (fun a b => (t_created_at b <=? t_created_at a)%N) answered in
    Return (match newest_first with
            | [] => None
            | t :: _ => t_response t
            end)
end.

(** [SELECT ... FROM tickets WHERE ticket_id = %s], then [fetchone()]. *)
Definition select_ticket_by_id (ticket_id : string) (d : database)
    : outcome (option ticket) :=
match tickets d with
| None => no_such_table "tickets"
| Some rows =>
    Return (List.find (fun t => sql_eq d (t_ticket_id t) ticket_id) rows)
end.

(** [INSERT INTO tickets (ticket_id, user_name, issue, status) VALUES ...]:
    the store as it will be once committed. The statement fails on a
    missing table, on a [ticket_id] that equals one already present (the
    column is UNIQUE) and on a value longer than its column. *)
Definition insert_ticket (ticket_id user_name issue status : string)
    (d : database) : outcome database :=
match tickets d with
| None => no_such_table "tickets"
| Some rows =>
    if existsb (fun t => sql_eq d (t_ticket_id t) ticket_id) rows
    then Raise (DatabaseError "Duplicate entry for key 'ticket_id'")
    else if too_long 20 ticket_id || too_long 255 user_name
            || too_long 65535 issue || too_long 50 status
    then Raise (DatabaseError "Data too long for column")
    else
      let row := {| t_id := S (foldr Nat.max 0 (map t_id rows));
                    t_ticket_id := ticket_id;
                    t_user_name := user_name;
                    t_issue := issue;
                    t_response := None;
                    t_status := status;
                    t_created_at := current_timestamp d |} in
      Return (set_tickets (rows ++ [row]) d)
end.

(** [UPDATE tickets SET response = %s, status = %s WHERE ticket_id = %s]. *)
Definition update_ticket (ticket_id response status : string)
    (d : database) : outcome database :=
match tickets d with
| None => no_such_table "tickets"
| Some rows =>
    if too_long 65535 response || too_long 50 status
    then Raise (DatabaseError "Data too long for column")
    else
      Return (set_tickets
                (map (fun t =>
                        if sql_eq d (t_ticket_id t) ticket_id
                        then {| t_id := t_id t;
                                t_ticket_id := t_ticket_id t;
                                t_user_name := t_user_name t;
                                t_issue := t_issue t;
                                t_response := Some response;
                                t_status := status;
                                t_created_at := t_created_at t |}
                        else t) rows) d)
end.

(** [uuid.uuid4().hex]. *)
Definition uuid4 : M string :=
fun w => (Return (uuid4_hex w (uuid_calls w)), set_uuid_calls (S (uuid_calls w)) w).

Definition create_support_ticket (user_name issue : string)
    : M (option string) :=
  try_except
    (get_db_connection ;;;
     hex <- uuid4 ;;
     let ticket_id := "TKT-" +:+ upper (take 8 hex) in
     d <- cursor_execute (insert_ticket ticket_id user_name issue "open") ;;
     conn_commit d ;;;
     ret (Some ticket_id))
    (fun e =>
       match e with
       | ConnectionError _ => ret None
       | _ => ret None
       end).

Definition update_ticket_response (ticket_id response status : string)
    : M bool :=
  try_except
    (get_db_connection ;;;
     d <- cursor_execute (update_ticket ticket_id response status) ;;
     conn_commit d ;;;
     ret true)
    (fun e =>
       match e with
       | ConnectionError _ => ret false
       | _ => ret false
       end).

Definition get_ticket_by_id (ticket_id : string) : M (option ticket) :=
  try_except
    (get_db_connection ;;;
     cursor_execute (select_ticket_by_id ticket_id))
    (fun e =>
       match e with
       | ConnectionError _ => ret None
       | _ => ret None
       end).

Definition query_ticket_answer (question : string) : M (option string) :=
  try_except
    (get_db_connection ;;;
     result <- cursor_execute (select_ticket_answer question) ;;
     match result with
     | Some response => ret (Some response)
     | None => ret None
     end)
    (fun e =>
       match e with
       | ConnectionError _ => ret None
       | _ => ret None
       end).

(** *** Team members and FAQ *)

Definition stop_words : list string :=
["the"; "a"; "an"; "and"; "or"; "but"; "is"; "are"; "was"; "were"; "what";
 "when"; "where"; "why"; "how"; "your"; "you"; "me"; "my"; "our"; "we"; "us";
 "i"; "he"; "she"; "it"; "they"; "them"; "this"; "that"; "these"; "those";
 "to"; "for"; "with"; "by"; "at"; "on"; "in"; "of"; "about"; "as"; "if";
 "then"; "than"; "so"; "because"; "can"; "could"; "would"; "should"; "will";
 "shall"; "may"; "might"].

(** [re.findall(r"\b[a-zA-Z]{3,}\b", question.lower())]: the maximal runs of
    word characters that consist of letters only and have three letters or
    more. The result is [list(set(...))] of the words that are no stop
    words, in the order the hash seed [seed] of the process gives the set. *)
Definition extract_keywords (seed : nat) (question : string) : list string :=
let words :=
  List.filter (fun w => forallb_str is_alpha w && (3 <=? String.length w))
              (runs is_word (lower question)) in
list_of_set seed (List.filter (fun w => negb (mem w stop_words)) words).

Definition is_name_char (c : ascii) : bool := is_alpha c || is_space c.

(** First pattern of [extract_name_from_question],
    [(?:who is|tell me about|what does|who's|what is)\s+([a-zA-Z\s]+)(?:'s)?],
    tried at the start of [s]: the text of group 1. After the introducing
    words, [\s+] takes the blanks and the group takes the letters and blanks
    that follow; when none follows, [\s+] gives its last blank back to the
    group. *)
Definition intro_words : list string :=
["who is"; "tell me about"; "what does"; "who's"; "what is"].

Definition intro_group (rest : string) : option string :=
let '(blanks, r) := span is_space rest in
if negb (truthy blanks) then None
else
  let '(g, _) := span is_name_char r in
  if truthy g then Some g
  else if 2 <=? String.length blanks then Some (last_char blanks)
  else None.

Fixpoint first_some {A B} (f : A -> option B) (l : list A) : option B :=
match l with
| [] => None
| x :: l' => match f x with Some y => Some y | None => first_some f l' end
end.

Definition match_intro_at (s : string) : option string :=
first_some (fun p => match after_prefix p s with
                     | Some rest => intro_group rest
                     | None => None
                     end) intro_words.

(** [re.search]: the match at the leftmost position that has one. *)
Fixpoint re_search (match_at : string -> option string) (s : string)
    : option string :=
match match_at s with
| Some g => Some g
| None =>
    match s with
    | EmptyString => None
    | String _ s' => re_search match_at s'
    end
end.

(** Second pattern,
    [([a-zA-Z\s]+)(?:'s)?(?:\s+profile|info|bio|other name|role)?$],
    tried at the start of [s]: group 1 is the run of letters and blanks, and
    what follows the run must be nothing, or ['s] followed by nothing or by
    one of the closing words up to the end of the text. *)
Definition closing_ok (rest : string) : bool :=
negb (truthy rest) ||
match after_prefix "'s" rest with
| Some t =>
    negb (truthy t) || mem t ["info"; "bio"; "other name"; "role"]
    || (let '(blanks, r) := span is_space t in
        truthy blanks && String.eqb r "profile")
| None => false
end.

Definition match_trailing_at (s : string) : option string :=
let '(g, rest) := span is_name_char s in
if truthy g && closing_ok rest then Some g else None.

Definition first_char_isupper (word : string) : bool :=
match word with
| String c _ => is_upper c
| EmptyString => false
end.

Definition extract_name_from_question (question : string) : option string :=
let question_lower := strip (lower question) in
let try_pattern match_at :=
  match re_search match_at question_lower with
  | Some g => let name := strip g in
              if 2 <? String.length name then Some name else None
  | None => None
  end in
match try_pattern match_intro_at with
| Some name => Some name
| None =>
    match try_pattern match_trailing_at with
    | Some name => Some name
    | None =>
        let words := split_ws question_lower in
        let capitalized_words := List.filter first_char_isupper words in
        match capitalized_words with
        | [] => None
        | _ => Some (join " " capitalized_words)
        end
    end
end.

Definition format_team_response (r : team_row) : string :=
tm_name r +:+ ": " +:+ tm_bio r.

(** [SELECT name, bio FROM teams WHERE LOWER(name) = %s LIMIT 1]. *)
Definition select_team_exact (name : string) (d : database)
    : outcome (option team_row) :=
match teams d with
| None => no_such_table "teams"
| Some rows =>
    Return (List.find (fun r => sql_eq d (lower (tm_name r)) name) rows)
end.

(** [SELECT name, bio FROM teams WHERE LOWER(name) LIKE %s LIMIT 1]. *)
Definition select_team_like (pattern : string) (d : database)
    : outcome (option team_row) :=
match teams d with
| None => no_such_table "teams"
| Some rows =>
    Return (List.find (fun r => sql_like pattern (lower (tm_name r))) rows)
end.

Definition query_team_info (question : string) : M (option string) :=
match extract_name_from_question question with
| None => ret None
| Some name =>
    if negb (truthy name) then ret None
    else
      try_except
        (get_db_connection ;;;
         result <- cursor_execute (select_team_exact (lower name)) ;;
         match result with
         | Some r => ret (Some (format_team_response r))
         | None =>
             result <- cursor_execute
                         (select_team_like (percent (lower name))) ;;
             match result with
             | Some r => ret (Some (format_team_response r))
             | None => ret None
             end
         end)
        (fun e =>
           match e with
           | ConnectionError _ => ret None
           | _ => ret None
           end)
end.

(** [SHOW TABLES LIKE 'faq'], then [fetchone()]. *)
Definition show_tables_faq (d : database) : outcome bool :=
Return (bool_decide (is_Some (faq d))).

(** The keyword statement of [query_faq]. The driver binds [params] to the
    [%s] marks in the order they stand in the statement: the two marks of
    the [CASE] take the first two parameters, the conditions of the [WHERE]
    take the following ones in pairs, one for the question and one for the
    answer. *)
Definition relevance (p_question p_answer : string) (r : faq_row) : nat :=
if sql_like p_question (lower (fq_question r)) then 1
else if sql_like p_answer (lower (fq_answer r)) then 2
else 3.

Fixpoint where_like (params : list string) (r : faq_row) : bool :=
match params with
| pq :: pa :: rest =>
    sql_like pq (lower (fq_question r)) || sql_like pa (lower (fq_answer r))
    || where_like rest r
| _ => false
end.

Definition select_faq_keywords (params : list string) (d : database)
    : outcome (list faq_row) :=
match faq d with
| None => no_such_table "faq"
| Some rows =>
    match params with
    | p0 :: p1 :: conditions =>
        let key r := (relevance p0 p1 r, String.length (fq_question r)) in
        let le a b :=
          (fst (key a) <? fst (key b))
          || ((fst (key a) =? fst (key b)) && (snd (key a) <=? snd (key b))) in
        Return (List.firstn 3 (order_by le (List.filter (where_like conditions) rows)))
    | _ => Raise (TypeError "not enough arguments for format string")
    end
end.

(** [SELECT question, answer FROM faq WHERE LOWER(question) LIKE %s OR
    LOWER(answer) LIKE %s ORDER BY LENGTH(question) LIMIT 1]. *)
Definition select_faq_text (pq pa : string) (d : database)
    : outcome (option faq_row) :=
match faq d with
| None => no_such_table "faq"
| Some rows =>
    let hits :=
      List.filter (fun r => sql_like pq (lower (fq_question r))
                            || sql_like pa (lower (fq_answer r))) rows in
    Return (head (order_by (fun a b => String.length (fq_question a)
                                       <=? String.length (fq_question b)) hits))
end.

(** [query_faq(question, llm)] for [llm = None], which is how
    [database_query_tool] is reached from the agent tool. *)
Definition query_faq (question : string) : M (option string) :=
  try_except
    (get_db_connection ;;;
     present <- cursor_execute show_tables_faq ;;
     if negb present then ret None
     else
       let fallback :=
         result <- cursor_execute
                     (select_faq_text (percent (lower question))
                                      (percent (lower question))) ;;
         match result with
         | Some r => ret (Some (fq_answer r))
         | None => ret None
         end in
       world <- get_world ;;
       let keywords := extract_keywords (hash_seed world) question in
       match keywords with
       | [] => fallback
       | _ =>
           let params :=
             flat_map (fun keyword => [percent keyword; percent keyword])
                      keywords
             ++ [percent (lower question); percent (lower question)] in
           results <- cursor_execute (select_faq_keywords params) ;;
           match results with
           | r :: _ => ret (Some (fq_answer r))
           | [] => fallback
           end
       end)
    (fun e =>
       match e with
       | ConnectionError _ => ret None
       | _ => ret None
       end).

Definition general_keywords : list string :=
["what"; "when"; "where"; "why"; "how"; "can"; "could"; "would"; "should";
 "hours"; "time"; "open"; "close"; "location"; "address"; "contact"; "phone";
 "email"; "price"; "cost"; "service"; "support"; "help"; "business"; "work";
 "operating"; "available"; "hour"; "schedule"; "timing"].

Definition is_general_question (question : string) : bool :=
any_in general_keywords (lower question).

(** The dictionary [{"response": ..., "found": ...}]. *)
Record query_result := { response : string; found : bool }.

Definition not_found : query_result :=
{| response := "No information found."; found := false |}.

(** [r = m; if r: return {"response": r, "found": True}], followed by the
    rest of the function. *)
Definition return_if_found (m : M (option string)) (rest : M query_result)
    : M query_result :=
  r <- m ;;
  match r with
  | Some a => if truthy a then ret {| response := a; found := true |} else rest
  | None => rest
  end.

(** A lookup that is skipped by its guard. *)
Definition skipped : M (option string) := ret None.

(** [database_query_tool(question)], with [llm] left at [None]. *)
Definition database_query_tool (question : string) : M query_result :=
  return_if_found
    (if is_general_question question then query_faq question else skipped)
  (return_if_found (query_team_info question)
  (return_if_found
    (if negb (is_general_question question) then query_faq question
     else skipped)
  (ret not_found))).

End DatabaseUtils.

(* ===================================================================== *)
(** ** rag_system.py: the retrieval answerer *)
(* ===================================================================== *)

Module RagSearch.
Import PyStr Runtime.
Local Open Scope py_scope.

Definition newline : string := String (ascii_of_N 10) EmptyString.

Definition not_found_phrases : list string :=
["not in the documentation"; "couldn't find";
 "don't have that information"; "not contained"].

(** The context handed to the model with the retrieved chunks. *)
Definition context_of (docs : list string) : string :=
join (newline +:+ newline) docs.

(** A call to one of the retrieval services. *)
Definition service {A} (call : rag_services -> outcome A) : M A :=
fun w => (call (rag w), w).

(** [rag_search(query)]. The services are consulted in the order of the
    source: the vector store, its chunk count, the chat client, the
    retriever with [k = 3], the model. *)
Definition rag_search (query : string) : M (option string) :=
  try_except
    (service get_vectorstore ;;;
     count <- service collection_count ;;
     if count =? 0 then ret None
     else
       service chat_groq ;;;
       relevant_docs <- service (fun s => retriever_invoke s query) ;;
       match relevant_docs with
       | [] => ret None
       | _ =>
           let context := context_of relevant_docs in
           content <- service (fun s => llm_invoke s query context) ;;
           let response_text := strip content in
           if any_in not_found_phrases (lower response_text)
           then ret None
           else ret (Some response_text)
       end)
    (fun e => ret None).

End RagSearch.

(* ===================================================================== *)
(** ** agent_tools.py *)
(* ===================================================================== *)

Module AgentTools.
Import PyStr Runtime DatabaseUtils RagSearch.
Local Open Scope py_scope.

(** [input(prompt)]: the next line of the console, [EOFError] when there is
    none. *)
Definition input : M string :=
fun w =>
  match stdin w with
  | [] => (Raise EOFError, w)
  | line :: rest => (Return line, set_stdin rest w)
  end.

Definition NO_INFO_FOUND : string := "___NO_INFO_FOUND___".

Definition query_database_tool (question : string) : M string :=
  try_except
    (ticket_answer <- query_ticket_answer question ;;
     match ticket_answer with
     | Some a =>
         if truthy a then ret a
         else
           result <- database_query_tool question ;;
           if found result then ret (response result) else ret NO_INFO_FOUND
     | None =>
         result <- database_query_tool question ;;
         if found result then ret (response result) else ret NO_INFO_FOUND
     end)
    (fun e => ret ("Database query error: " +:+ str_of_exn e)).

Definition query_rag_tool (question : string) : M string :=
  try_except
    (result <- rag_search question ;;
     match result with
     | Some a =>
         if truthy a then ret a
         else ret "No relevant information found in documentation."
     | None => ret "No relevant information found in documentation."
     end)
    (fun e => ret ("RAG search error: " +:+ str_of_exn e)).

Definition create_support_ticket_tool (user_question user_name : string)
    : M string :=
  line <- input ;;
  let confirm := lower (strip line) in
  if negb (mem confirm ["yes"; "y"]) then ret "Okay, no ticket was created."
  else
    ticket_id <- create_support_ticket user_name user_question ;;
    match ticket_id with
    | Some id =>
        if truthy id
        then ret ("Support ticket #" +:+ id
                  +:+ " created successfully. Our team will respond soon.")
        else ret "Failed to create a support ticket. Please try again later."
    | None => ret "Failed to create a support ticket. Please try again later."
    end.

Definition check_ticket_status_tool (ticket_id : string) : M string :=
  ticket <- get_ticket_by_id ticket_id ;;
  match ticket with
  | None => ret ("Ticket " +:+ ticket_id +:+ " not found.")
  | Some t =>
      let head :=
        "Ticket " +:+ ticket_id +:+ " (" +:+ t_status t +:+ ")" +:+ newline
        +:+ "Issue: " +:+ t_issue t +:+ newline in
      match t_response t with
      | Some r =>
          if truthy r then ret (head +:+ "Response: " +:+ r)
          else ret (head +:+ "Response: Pending from support.")
      | None => ret (head +:+ "Response: Pending from support.")
      end
  end.

(** A request for one of [SUPPORT_AGENT_TOOLS] with its arguments;
    [user_name] is optional and defaults to ["anonymous"]. *)
Inductive tool_call :=
| QueryDatabase (question : string)
| QueryRag (question : string)
| CreateSupportTicket (user_question : string) (user_name : option string)
| CheckTicketStatus (ticket_id : string).

Definition invoke_tool (c : tool_call) : M string :=
match c with
| QueryDatabase question => query_database_tool question
| QueryRag question => query_rag_tool question
| CreateSupportTicket user_question user_name =>
    create_support_ticket_tool user_question (default "anonymous" user_name)
| CheckTicketStatus ticket_id => check_ticket_status_tool ticket_id
end.

(** The replies [create_support_ticket_tool] takes for a confirmation. *)
Definition affirmative (reply : string) : bool :=
mem (lower (strip reply)) ["yes"; "y"].

End AgentTools.

(* ===================================================================== *)
(** ** The order of the structured lookup, as the specification words it *)
(* ===================================================================== *)

Module LookupOrder.
Import PyStr Runtime DatabaseUtils AgentTools.
Local Open Scope py_scope.

(** Try the sources one after the other and stop at the first that yields
    a non-empty text. *)
Fixpoint first_hit (sources : list (M (option string))) : M (option string) :=
match sources with
| [] => ret None
| source :: rest =>
    r <- source ;;
    match r with
    | Some a => if truthy a then ret (Some a) else first_hit rest
    | None => first_hit rest
    end
end.

(** The fixed order of the specification: answered ticket, FAQ, team. *)
Definition stated_order (question : string) : list (M (option string)) :=
[query_ticket_answer question; query_faq question; query_team_info question].

(** The order the sources are tried in: the FAQ comes before the team
    directory for a general question and after it for any other. *)
Definition lookup_order (question : string) : list (M (option string)) :=
query_ticket_answer question ::
(if is_general_question question
 then [query_faq question; query_team_info question]
 else [query_team_info question; query_faq question]).

(** The text the tool makes of the outcome of the lookups. *)
Definition answer_or_marker (r : option string) : string :=
default NO_INFO_FOUND r.

(** [t] is a stored ticket whose issue equals the question for the server
    (the same text, or a text its collation takes for equal) and whose
    response is not NULL. *)
Definition answered (d : database) (question : string) (t : ticket) : Prop :=
sql_eq d (t_issue t) question = true /\ is_Some (t_response t).

(** [t] is such a ticket of the table, and no such ticket is more recent. *)
Definition newest_answered (d : database) (question : string)
    (rows : list ticket) (t : ticket) : Prop :=
In t rows /\ answered d question t /\
forall t', In t' rows -> answered d question t' ->
           (t_created_at t' <= t_created_at t)%N.

(** The driver does not fail during its next [n] operations. *)
Definition no_fault_within (n : nat) (w : world) : Prop :=
forall i, i < n -> db_faults w !! i <> Some true.

End LookupOrder.

(* ===================================================================== *)
(** ** agent_graph.py *)
(* ===================================================================== *)

Module AgentGraph.
Import PyStr Runtime AgentTools.
Local Open Scope py_scope.

Inductive message_class := HumanMessage | AIMessage | FunctionMessage.

(** A message with its content and the entry ["tool_calls"] of its
    [additional_kwargs], [None] when the key is absent. *)
Record BaseMessage := {
  msg_class : message_class;
  content : string;
  tool_calls : option (list tool_call)
}.

Definition human (text : string) : BaseMessage :=
{| msg_class := HumanMessage; content := text; tool_calls := None |}.

(** [AIMessage(content=text)]. *)
Definition ai (text : string) : BaseMessage :=
{| msg_class := AIMessage; content := text; tool_calls := None |}.

Definition steps : Type := list (tool_call * string).

Record AgentState := {
  chat_history : list BaseMessage;
  agent_outcome : steps
}.

(** What [agent_executor.invoke] hands back, by the three cases
    [run_agent] tells apart: a message, a dictionary (with its optional
    keys ["output"] and ["intermediate_steps"]), anything else (with its
    [str]). *)
Inductive executor_result :=
| ResultMessage (m : BaseMessage)
| ResultDict (output : option string) (intermediate_steps : option steps)
| ResultOther (text : string).

(** The conduct of the model during one call of the executor: asked for
    its next step, it finishes with the text of its answer, or requests a
    tool and goes on from the text the tool returned. *)
Inductive plan :=
| Finish (output : string)
| Request (c : tool_call) (next : string -> plan).

(** [AgentExecutor] is built with its defaults: at most 15 iterations,
    and, once they are used up, the answer below in place of one of the
    model. *)
Definition max_iterations : nat := 15.

Definition stopped_response : string := "Agent stopped due to max iterations.".

(** What [AgentExecutor.invoke] hands back is a dictionary: the inputs and
    the key ["output"]; the key ["intermediate_steps"] is absent, since
    the executor is not asked to return them. *)
Definition executor_dict (output : string) : executor_result :=
ResultDict (Some output) None.

(** The loop of the executor with [iterations] iterations left: each
    iteration asks the model for its next step and runs the tool of
    [SUPPORT_AGENT_TOOLS] it requests; an exception of a tool ends the
    call. With no iteration left the model is not asked again. *)
Fixpoint execute_up_to (iterations : nat) (p : plan) : M executor_result :=
match iterations with
| 0 => ret (executor_dict stopped_response)
| S iterations' =>
    match p with
    | Finish output => ret (executor_dict output)
    | Request c next =>
        observation <- invoke_tool c ;;
        execute_up_to iterations' (next observation)
    end
end.

Definition execute_plan (p : plan) : M executor_result :=
execute_up_to max_iterations p.

(** [xs[-1]]. *)
Definition getitem_last {A} (xs : list A) : M A :=
match last xs with
| Some x => ret x
| None => raise (IndexError "list index out of range")
end.

(** Whether a result of the executor leaves, as last message of the
    history, one without tool calls. *)
Definition without_tool_call (r : executor_result) : bool :=
match r with
| ResultMessage m =>
    match tool_calls m with
    | Some (_ :: _) => false
    | _ => true
    end
| ResultDict _ _ | ResultOther _ => true
end.

(** The state [run_agent] returns for a result of the executor. *)
Definition state_after (chat_history : list BaseMessage) (r : executor_result)
    : AgentState :=
match r with
| ResultMessage m =>
    {| agent_outcome := []; chat_history := chat_history ++ [m] |}
| ResultDict output intermediate_steps =>
    {| agent_outcome := default [] intermediate_steps;
       chat_history := chat_history ++ [ai (default EmptyString output)] |}
| ResultOther text =>
    {| agent_outcome := []; chat_history := chat_history ++ [ai text] |}
end.

Inductive route := continue_tool_call | end_.

Inductive node := agent | tools | END.

(** [ToolNode(SUPPORT_AGENT_TOOLS)] run on a state of this workflow: the
    prebuilt node looks for the key ["messages"], which [AgentState] does
    not have. *)
Definition prebuilt_tool_node (state : AgentState) : M AgentState :=
raise (ValueError "No message found in input").

Section Workflow.
(** The model behind the executor, as a function of the three inputs the
    executor is invoked with, and the tool node of the workflow (in the
    sources, [prebuilt_tool_node]). *)
Variable llm : string -> list BaseMessage -> steps -> plan.
Variable tool_node : AgentState -> M AgentState.

Definition agent_executor_invoke
    (input : string) (history : list BaseMessage) (agent_scratchpad : steps)
    : M executor_result :=
execute_plan (llm input history agent_scratchpad).

Definition run_agent (state : AgentState) : M AgentState :=
  let chat_history := chat_history state in
  let agent_scratchpad := agent_outcome state in
  last_message <- getitem_last chat_history ;;
  result <- agent_executor_invoke (content last_message)
                                  (removelast chat_history) agent_scratchpad ;;
  match result with
  | ResultMessage m =>
      ret {| agent_outcome := []; chat_history := chat_history ++ [m] |}
  | ResultDict output intermediate_steps =>
      let output_content := default EmptyString output in
      ret {| agent_outcome := default [] intermediate_steps;
             chat_history := chat_history ++ [ai output_content] |}
  | ResultOther text =>
      ret {| agent_outcome := []; chat_history := chat_history ++ [ai text] |}
  end.

Definition should_continue (state : AgentState) : M route :=
  last_message <- getitem_last (chat_history state) ;;
  match tool_calls last_message with
  | Some (_ :: _) => ret continue_tool_call
  | _ => ret end_
  end.

(** One node of the workflow: the entry point is [agent]; its conditional
    edges lead to [tools] or to [END]; [tools] leads back to [agent]. *)
Definition run_node (n : node) (state : AgentState) : M (node * AgentState) :=
match n with
| agent =>
    state' <- run_agent state ;;
    r <- should_continue state' ;;
    ret (match r with continue_tool_call => tools | end_ => END end, state')
| tools => state' <- tool_node state ;; ret (agent, state')
| END => ret (END, state)
end.

(** The run of the compiled workflow, observed for at most [fuel] node
    executions: [Some] final state once [END] is reached, [None] while the
    run is still going on. *)
Fixpoint run_from (fuel : nat) (n : node) (state : AgentState)
    : M (option AgentState) :=
match n with
| END => ret (Some state)
| _ =>
    match fuel with
    | 0 => ret None
    | S fuel' =>
        next <- run_node n state ;;
        run_from fuel' (fst next) (snd next)
    end
end.

Definition app_invoke (fuel : nat) (initial_state : AgentState)
    : M (option AgentState) :=
run_from fuel agent initial_state.

(** [for s in app.stream(initial_state)]: the same run, its states dropped
    by the loop body. *)
Definition app_stream (fuel : nat) (initial_state : AgentState)
    : M (option AgentState) :=
run_from fuel agent initial_state.

Definition initial_state
    (user_input : string) (conversation_history : list BaseMessage)
    : AgentState :=
{| chat_history :=
     (match conversation_history with [] => [] | _ => conversation_history end)
     ++ [human user_input];
   agent_outcome := [] |}.

(** The result is one message, the last of the final history. *)
Definition process_graph_with_agent (fuel : nat)
    (user_input : string) (conversation_history : list BaseMessage)
    : M (option BaseMessage) :=
  let initial_state := initial_state user_input conversation_history in
  streamed <- app_stream fuel initial_state ;;
  match streamed with
  | None => ret None
  | Some _ =>
      final_state <- app_invoke fuel initial_state ;;
      match final_state with
      | None => ret None
      | Some final_state =>
          m <- getitem_last (chat_history final_state) ;;
          ret (Some m)
      end
  end.

End Workflow.
End AgentGraph.

(* ===================================================================== *)
(** ** api.py *)
(* ===================================================================== *)

Module Api.
Import PyStr Runtime AgentTools AgentGraph.
Local Open Scope py_scope.

Record Message := { m_content : string; m_type : string }.

Record ChatRequest := {
  user_input : string;
  conversation_history : list Message
}.

Record ChatResponse := {
  agent_response : string;
  updated_conversation_history : list Message
}.

(** The reply of the endpoint: the response model, or the error
    [HTTPException(status_code=500, detail=...)]. *)
Inductive http_reply :=
| Http200 (r : ChatResponse)
| Http500 (detail : string).

Definition convert_to_langchain_messages (history : list Message)
    : list BaseMessage :=
flat_map (fun msg =>
            if String.eqb (m_type msg) "human" then [human (m_content msg)]
            else if String.eqb (m_type msg) "ai" then [ai (m_content msg)]
            else []) history.

Definition convert_from_langchain_messages (history : list BaseMessage)
    : list Message :=
flat_map (fun msg =>
            match msg_class msg with
            | HumanMessage => [{| m_content := content msg; m_type := "human" |}]
            | AIMessage => [{| m_content := content msg; m_type := "ai" |}]
            | FunctionMessage => []
            end) history.

Definition is_conversational (query : string) : bool :=
any_in ["hello"; "hi"; "hey"; "how are you"; "good morning";
        "good afternoon"; "good evening"] (strip (lower query)).

Definition is_goodbye (query : string) : bool :=
any_in ["bye"; "goodbye"; "see you"; "farewell"; "take care"]
       (strip (lower query)).

Definition handle_conversational_query (query : string) : string :=
let query_lower := strip (lower query) in
if any_in ["hello"; "hi"; "hey"; "howdy"] query_lower then
  "Hello! I'm your autonomous customer support agent. How can I help you today?"
else if py_in "how are you" query_lower then
  "I'm functioning well, thank you! I'm here to help you with any questions using my available tools."
else if any_in ["good morning"; "morning"] query_lower then
  "Good morning! What can I assist you with today?"
else if is_goodbye query_lower then
  "Goodbye! Thank you for chatting with me. Have a great day!"
else "I'm here to help! How can I assist you today?".

(** The values the name [response_history] can hold at run time: the
    handler treats it as a list of messages, [process_graph_with_agent]
    binds it to one message. *)
Inductive pyobj :=
| Obj_message (m : BaseMessage)
| Obj_list (l : list BaseMessage).

Definition class_name (m : BaseMessage) : string :=
match msg_class m with
| HumanMessage => "HumanMessage"
| AIMessage => "AIMessage"
| FunctionMessage => "FunctionMessage"
end.

(** [obj[-1]]: a message object has no [__getitem__]. *)
Definition subscript_last (obj : pyobj) : M BaseMessage :=
match obj with
| Obj_list l => getitem_last l
| Obj_message m =>
    raise (TypeError ("'" +:+ class_name m +:+ "' object is not subscriptable"))
end.

(** [for msg in obj]: iterating over a message object yields its fields,
    none of which is a message. *)
Definition iterate (obj : pyobj) : list BaseMessage :=
match obj with
| Obj_list l => l
| Obj_message _ => []
end.

Section Endpoint.
Variable llm : string -> list BaseMessage -> steps -> plan.
Variable tool_node : AgentState -> M AgentState.

(** [POST /chat]. [None] stands for a request whose agent run has not
    ended within [fuel] node executions. *)
Definition chat_with_agent (fuel : nat) (request : ChatRequest)
    : M (option http_reply) :=
  try_except
    (if is_conversational (user_input request) || is_goodbye (user_input request)
     then
       let response_content := handle_conversational_query (user_input request) in
       let temp_history :=
         convert_to_langchain_messages (conversation_history request)
         ++ [human (user_input request)] ++ [ai response_content] in
       ret (Some (Http200
                    {| agent_response := response_content;
                       updated_conversation_history :=
                         convert_from_langchain_messages temp_history |}))
     else
       let langchain_history :=
         convert_to_langchain_messages (conversation_history request)
         ++ [human (user_input request)] in
       returned <- process_graph_with_agent llm tool_node fuel
                     (user_input request) langchain_history ;;
       match returned with
       | None => ret None
       | Some m =>
           let response_history := Obj_message m in
           agent_response_message <- subscript_last response_history ;;
           let agent_response_content := content agent_response_message in
           let updated_conversation_history :=
             convert_from_langchain_messages (iterate response_history) in
           ret (Some (Http200
                        {| agent_response := agent_response_content;
                           updated_conversation_history :=
                             updated_conversation_history |}))
       end)
    (fun e => ret (Some (Http500 (str_of_exn e)))).

End Endpoint.
End Api.

(* ===================================================================== *)
(** ** Worlds and models to run the code on *)
(* ===================================================================== *)

Module Fixtures.
Import PyStr Runtime AgentTools AgentGraph.

(** A digest and a clock for the tracker. *)
Definition toy_md5 (data : string) : string := "md5:" +:+ data.
Definition toy_clock (filename : string) : string := "2024-01-01T00:00:00".

Definition no_services : rag_services :=
{| get_vectorstore := Return tt;
   collection_count := Return 0;
   chat_groq := Return tt;
   retriever_invoke := fun _ => Return [];
   llm_invoke := fun _ _ => Return EmptyString |}.

Definition hex_of_call (k : nat) : string :=
match k with
| 0 => "3f2a9c1b0d4e4f6a8b7c6d5e4f3a2b1c"
| 1 => "a81b22c34d5e4f60718293a4b5c6d7e8"
| _ => "0123456789abcdef0123456789abcdef"
end.

Definition world_of (d : database) (faults : list bool) (lines : list string)
    : world :=
{| db := d; db_faults := faults; stdin := lines;
   uuid4_hex := hex_of_call; uuid_calls := 0; rag := no_services;
   hash_seed := 0 |}.

(** The collation of a server left at its defaults: letter case makes no
    difference. *)
Definition case_insensitive (a b : string) : bool :=
String.eqb (lower a) (lower b).

(** A store with one team member and one FAQ entry about her, and no
    ticket yet. *)
Definition alice_db : database :=
{| tickets := Some [];
   teams := Some [{| tm_name := "Alice"; tm_bio := "Support lead" |}];
   faq := Some [{| fq_question := "Who is Alice?";
                   fq_answer := "Alice answers support questions." |}];
   current_timestamp := 1700000000;
   collation := case_insensitive |}.

(** Two answered tickets on the same issue; the later answer is returned
    though the team directory knows Alice. *)
Definition answered_twice_db : database :=
{| tickets := Some
     [ {| t_id := 1; t_ticket_id := "TKT-00000001"; t_user_name := "bob";
          t_issue := "who is alice"; t_response := Some "She left in May.";
          t_status := "closed"; t_created_at := 100 |};
       {| t_id := 2; t_ticket_id := "TKT-00000002"; t_user_name := "eve";
          t_issue := "who is alice";
          t_response := Some "Alice leads the support team.";
          t_status := "closed"; t_created_at := 200 |} ];
   teams := teams alice_db; faq := faq alice_db;
   current_timestamp := 300;
   collation := case_insensitive |}.

(** Services that hold two chunks on refunds and whose model answers the
    refund question from them and any other question with an apology. *)
Definition refund_services : rag_services :=
{| get_vectorstore := Return tt;
   collection_count := Return 2;
   chat_groq := Return tt;
   retriever_invoke := fun q =>
     Return ["Refunds are issued within 14 days."; "Contact billing for refunds."];
   llm_invoke := fun q _ =>
     if py_in "refund" (lower q)
     then Return "  Refunds are issued within 14 days. "
     else Return "I'm sorry, I Couldn't Find that in the provided context." |}.

Definition refund_world : world :=
{| db := alice_db; db_faults := []; stdin := [];
   uuid4_hex := hex_of_call; uuid_calls := 0; rag := refund_services;
   hash_seed := 0 |}.

(** A model that asks for one ticket and then answers with the text the
    tool returned. *)
Definition ticket_model (input : string) (history : list BaseMessage)
    (scratchpad : steps) : plan :=
Request (CreateSupportTicket input None) (fun observation => Finish observation).



(** A model that has no answer: its reply is the marker. *)
Definition clueless_model (input : string) (history : list BaseMessage)
    (scratchpad : steps) : plan :=
Finish "___NO_INFO_FOUND___".

(** The model asks for one ticket and the user confirms at each prompt. *)
Definition one_turn :=
  process_graph_with_agent ticket_model prebuilt_tool_node 3
    "my printer is on fire" [] (world_of alice_db [] ["yes"; "yes"]).

(** A first message to [/chat] that is neither a greeting nor a goodbye. *)
Definition printer_request : Api.ChatRequest :=
{| Api.user_input := "my printer is on fire"; Api.conversation_history := [] |}.

End Fixtures.

(* ===================================================================== *)
(** ** database_utils.py: the table of tickets *)
(* ===================================================================== *)

Module TicketTable.
Import PyStr Runtime DatabaseUtils.
Local Open Scope py_scope.

(** [CREATE TABLE IF NOT EXISTS tickets (...)]: an existing table is left
    as it is, a missing one is created empty. *)
Definition create_table_tickets (d : database) : database :=
match tickets d with
| Some _ => d
| None =>
    {| tickets := Some []; teams := teams d; faq := faq d;
       current_timestamp := current_timestamp d; collation := collation d |}
end.

(** [cursor.execute] of a statement of the data definition language: MySQL
    commits such a statement when it executes it. *)
Definition cursor_execute_ddl (change : database -> database) : M unit :=
  failed <- next_fault ;;
  if failed then raise (DatabaseError "Lost connection to MySQL server during query")
  else fun w => (Return tt, set_db (change (db w)) w).

Definition init_ticket_db : M bool :=
  try_except
    (get_db_connection ;;;
     cursor_execute_ddl create_table_tickets ;;;
     w <- get_world ;;
     conn_commit (db w) ;;;
     ret true)
    (fun e =>
       match e with
       | ConnectionError _ => ret false
       | _ => ret false
       end).

End TicketTable.

(* ===================================================================== *)
(** ** main.py: the conversation state and one turn of the console *)
(* ===================================================================== *)

Module Main.
Import PyStr Runtime DatabaseUtils RagSearch AgentTools AgentGraph.

(** *** [ConversationState] *)

Record ConversationState := { history : list BaseMessage }.

Definition add_message (role content : string) (self : ConversationState)
    : ConversationState :=
if String.eqb role "user"
then {| history := history self ++ [human content] |}
else if String.eqb role "assistant"
then {| history := history self ++ [ai content] |}
else self.

(** [self.history[-10:]]. *)
Definition get_history (self : ConversationState) : list BaseMessage :=
skipn (length (history self) - 10) (history self).

(** *** Conversational queries *)

Definition is_conversational (query : string) : bool :=
any_in ["hello"; "hi"; "hey"; "how are you"; "good morning";
        "good afternoon"; "good evening"] (strip (lower query)).

Definition is_goodbye (query : string) : bool :=
any_in ["bye"; "goodbye"; "see you"; "farewell"; "take care"]
       (strip (lower query)).

Definition handle_conversational_query (query : string) : string :=
let query_lower := strip (lower query) in
if any_in ["hello"; "hi"; "hey"; "howdy"] query_lower then
  "Hello! I'm your autonomous customer support agent. How can I help you today?"
else if py_in "how are you" query_lower then
  "I'm functioning well, thank you! I'm here to help you with any questions using my available tools."
else if any_in ["good morning"; "morning"] query_lower then
  "Good morning! What can I assist you with today?"
else if is_goodbye query_lower then
  "Goodbye! Thank you for chatting with me. Have a great day!"
else "I'm here to help! How can I assist you today?".

(** *** The console program

    The program runs in the world of the tools, extended by the global
    [conversation_state] and by the text that [main.py] itself writes to
    the standard output (the prompts of [input] included). *)
Record console := {
  con_world : world;
  conversation_state : ConversationState;
  stdout : string
}.

Definition P (A : Type) : Type := console -> outcome A * console.

Definition retP {A} (a : A) : P A := fun c => (Return a, c).

Definition bindP {A B} (m : P A) (k : A -> P B) : P B :=
fun c =>
  match m c with
  | (Return a, c') => k a c'
  | (Raise e, c') => (Raise e, c')
  end.

(** [try: body except Exception as e: handler]. *)
Definition try_exceptP {A} (body : P A) (handler : exn -> P A) : P A :=
fun c =>
  match body c with
  | (Return a, c') => (Return a, c')
  | (Raise e, c') => handler e c'
  end.

(** A call into the other modules. *)
Definition call {A} (m : M A) : P A :=
fun c =>
  let '(r, w') := m (con_world c) in
  (r, {| con_world := w'; conversation_state := conversation_state c;
         stdout := stdout c |}).

(** [print(text, end=ending)]. *)
Definition print_end (text ending : string) : P unit :=
fun c =>
  (Return tt, {| con_world := con_world c;
                 conversation_state := conversation_state c;
                 stdout := stdout c +:+ text +:+ ending |}).

Definition print (text : string) : P unit := print_end text newline.

(** [input(prompt)]. *)
Definition input_prompt (prompt : string) : P string :=
bindP (print_end prompt EmptyString) (fun _ => call input).

Definition get_conversation_state : P ConversationState :=
fun c => (Return (conversation_state c), c).

(** [conversation_state.add_message(role, content)]. *)
Definition conversation_state_add_message (role content : string) : P unit :=
fun c =>
  (Return tt, {| con_world := con_world c;
                 conversation_state :=
                   add_message role content (conversation_state c);
                 stdout := stdout c |}).

(** [str(ticket_id)] of the value [create_support_ticket] returns. *)
Definition str_of_ticket_id (ticket_id : option string) : string :=
default "None" ticket_id.

Definition carriage_return : string := String (ascii_of_N 13) EmptyString.

(** How an iteration of [while True] ends. *)
Inductive loop_exit := continue_ | break_.

Section Loop.
Variable llm : string -> list BaseMessage -> steps -> plan.
Variable tool_node : AgentState -> M AgentState.

Local Notation "x <- m ;; k" := (bindP m (fun x => k))
  (at level 100, m at next level, right associativity).
Local Notation "m ;;; k" := (bindP m (fun _ => k))
  (at level 100, right associativity).

(** The body of the interaction loop. [None] stands for a turn whose
    agent run has not ended within [fuel] node executions. A message
    always has a [content], so the [hasattr] test holds. A keyboard
    interrupt is not an input of the model. *)
Definition interaction (fuel : nat) : P (option loop_exit) :=
  try_exceptP
    (line <- input_prompt "User: " ;;
     let user_input := strip line in
     if mem (lower user_input) ["quit"; "exit"; "q"] then
       print "Goodbye! Thank you for using our support service." ;;;
       retP (Some break_)
     else if is_conversational user_input || is_goodbye user_input then
       let response := handle_conversational_query user_input in
       print ("Assistant: " +:+ response +:+ newline) ;;;
       retP (Some continue_)
     else
       print_end "Thinking..." EmptyString ;;;
       state <- get_conversation_state ;;
       returned <- call (process_graph_with_agent llm tool_node fuel
                           user_input (get_history state)) ;;
       match returned with
       | None => retP None
       | Some response_message =>
           let response_content := content response_message in
           print (carriage_return +:+ "Assistant: " +:+ response_content
                  +:+ newline) ;;;
           conversation_state_add_message "user" user_input ;;;
           conversation_state_add_message "assistant" response_content ;;;
           if String.eqb (strip response_content) "___NO_INFO_FOUND___" then
             print "Assistant: I apologize, I don't have an answer to that." ;;;
             reply <- input_prompt
                        "Would you like me to create a support ticket for this issue? (yes/no): " ;;
             let create_ticket := lower (strip reply) in
             if mem create_ticket ["yes"; "y"] then
               ticket_id <- call (create_support_ticket "anonymous" user_input) ;;
               print ("Support ticket #" +:+ str_of_ticket_id ticket_id
                      +:+ " created successfully. Our support team will reach out to you soon."
                      +:+ newline) ;;;
               retP (Some continue_)
             else
               print ("Okay, no ticket created." +:+ newline) ;;;
               retP (Some continue_)
           else retP (Some continue_)
       end)
    (fun e =>
       print (newline +:+ "Error: " +:+ str_of_exn e) ;;;
       retP (Some break_)).

End Loop.
End Main.

(* ===================================================================== *)
(** ** frontend.py: the handling of one prompt *)
(* ===================================================================== *)

Module Frontend.
Import PyStr Runtime AgentGraph Api.
Local Open Scope py_scope.

(** What [requests.post] yields: the reply of the server, or a
    [RequestException] when the server cannot be reached. *)
Inductive post_result :=
| Response (reply : http_reply)
| RequestException (text : string).

(** What the handler leaves: [st.session_state.conversation_history], the
    text given to [st.error], if any, and the text given to
    [st.markdown]. *)
Record rendered := {
  session_history : list Message;
  error : option string;
  markdown : string
}.

Definition FASTAPI_URL : string := "http://127.0.0.1:8000/chat".

(** [str(e)] of the [HTTPError] that [raise_for_status] raises for the
    status 500. *)
Definition http_error_500 : string :=
"500 Server Error: Internal Server Error for url: " +:+ FASTAPI_URL.

Definition could_not_connect (e : string) : string :=
"Could not connect to the agent backend. Please ensure it is running. Error: "
+:+ e.

Section Prompt.
Variable post : ChatRequest -> M (option post_result).

(** The body of [if prompt := st.chat_input(...)], from the history
    [session] of the session state. [None] stands for a request that is
    still being served. *)
Definition on_prompt (prompt : string) (session : list Message)
    : M (option rendered) :=
  let session := session ++ [{| m_content := prompt; m_type := "human" |}] in
  let fastapi_request_data :=
    {| user_input := prompt; conversation_history := session |} in
  response <- post fastapi_request_data ;;
  match response with
  | None => ret None
  | Some (Response (Http200 api_response)) =>
      ret (Some {| session_history := updated_conversation_history api_response;
                   error := None;
                   markdown := agent_response api_response |})
  | Some (Response (Http500 _)) =>
      ret (Some {| session_history := session;
                   error := Some (could_not_connect http_error_500);
                   markdown := EmptyString |})
  | Some (RequestException e) =>
      ret (Some {| session_history := session;
                   error := Some (could_not_connect e);
                   markdown := EmptyString |})
  end.

End Prompt.

(** The request reaches the [/chat] handler of [api.py]. *)
Definition served (llm : string -> list BaseMessage -> steps -> plan)
    (tool_node : AgentState -> M AgentState) (fuel : nat)
    (request : ChatRequest) : M (option post_result) :=
  reply <- chat_with_agent llm tool_node fuel request ;;
  ret (option_map Response reply).

End Frontend.

(* ===================================================================== *)
(** ** Notions the properties are stated with *)
(* ===================================================================== *)

Module Notions.
Import PyStr Runtime DatabaseUtils AgentTools AgentGraph Api.

(** *** Tickets *)

(** A row of the table once [UPDATE tickets SET response, status WHERE
    ticket_id] has run. *)
Definition with_response (d : database) (ticket_id response status : string)
    (t : ticket) : ticket :=
if sql_eq d (t_ticket_id t) ticket_id
then {| t_id := t_id t; t_ticket_id := t_ticket_id t;
        t_user_name := t_user_name t; t_issue := t_issue t;
        t_response := Some response; t_status := status;
        t_created_at := t_created_at t |}
else t.

(** *** Messages *)

(** The message types the conversion knows. *)
Definition known_type (msg : Message) : bool :=
String.eqb (m_type msg) "human" || String.eqb (m_type msg) "ai".

(** *** Calls that leave the store alone *)

Definition keeps_db {A} (m : M A) : Prop := forall w, db (m w).2 = db w.

(** *** The sources of an answer *)

(** [text] is the response of a stored ticket whose issue equals the
    question for the server. *)
Definition stored_ticket_response (question : string) (d : database)
    (text : string) : Prop :=
exists rows t, tickets d = Some rows /\ In t rows
               /\ sql_eq d (t_issue t) question = true
               /\ t_response t = Some text.

(** [text] is the answer of a stored FAQ entry. *)
Definition stored_faq_answer (d : database) (text : string) : Prop :=
exists rows r, faq d = Some rows /\ In r rows /\ text = fq_answer r.

(** [text] is the record of a stored team member. *)
Definition stored_team_record (d : database) (text : string) : Prop :=
exists rows r, teams d = Some rows /\ In r rows
               /\ text = tm_name r +:+ ": " +:+ tm_bio r.

(** *** The executor *)

(** The message [run_agent] appends for a result of the executor. *)
Definition reply (r : executor_result) : BaseMessage :=
match r with
| ResultMessage m => m
| ResultDict output _ => ai (default EmptyString output)
| ResultOther text => ai text
end.


End Notions.

(* ===================================================================== *)
(** * Properties *)
(* ===================================================================== *)

Example lower_ex : PyStr.lower "Who IS Alice?" = "who is alice?".
Proof. reflexivity. Qed.

Example strip_ex : PyStr.strip "  yes  " = "yes".
Proof. reflexivity. Qed.

Example splitext_ex :
  map PyStr.splitext_ext ["policy.txt"; "a.b.PDF"; ".txt"; "..doc"; "notes"; "x."]
  = [".txt"; ".PDF"; EmptyString; EmptyString; EmptyString; "."].
Proof. reflexivity. Qed.

Example split_ex : PyStr.split_ws " who  is alice " = ["who"; "is"; "alice"].
Proof. reflexivity. Qed.

Example str_of_nat_ex : map PyStr.str_of_nat [0; 7; 500] = ["0"; "7"; "500"].
Proof. reflexivity. Qed.

(* --------------------------------------------------------------------- *)
(** ** The tracker key determines the file name *)
(* --------------------------------------------------------------------- *)

Module KeyFacts.
Import PyStr RagTracker.

Lemma string_of_uint_digits (u : Decimal.uint) :
  digits_only (NilEmpty.string_of_uint u) = true.
Proof. induction u; simpl; auto. Qed.

Lemma str_of_nat_digits (n : nat) : digits_only (str_of_nat n) = true.
Proof.
  unfold str_of_nat, NilZero.string_of_uint.
  destruct (Nat.to_uint n) eqn:E; try reflexivity;
    rewrite <- E; apply string_of_uint_digits.
Qed.

Lemma digits_only_no_underscore (a b : string) :
  digits_only (a +:+ String "_" b) = false.
Proof.
  induction a as [|c a IH]; simpl.
  - reflexivity.
  - rewrite IH. apply andb_false_r.
Qed.

(** The text after the last underscore is the size, so two keys agree only
    on the same name. *)
Lemma key_name_determined (f1 f2 d1 d2 : string) :
  digits_only d1 = true -> digits_only d2 = true ->
  f1 +:+ String "_" d1 = f2 +:+ String "_" d2 -> f1 = f2.
Proof.
  revert f2. induction f1 as [|a f1 IH]; intros [|b f2] H1 H2 E; simpl in E.
  - reflexivity.
  - injection E as _ E. rewrite E, digits_only_no_underscore in H1. discriminate.
  - injection E as _ E. rewrite <- E, digits_only_no_underscore in H2. discriminate.
  - injection E as -> E. f_equal. eauto.
Qed.

Lemma file_key_inj_name (n1 n2 : string) (s1 s2 : nat) :
  file_key n1 s1 = file_key n2 s2 -> n1 = n2.
Proof.
  unfold file_key. simpl. apply key_name_determined; apply str_of_nat_digits.
Qed.

End KeyFacts.

(* --------------------------------------------------------------------- *)
(** ** Containment survives [strip] and [lower] *)
(* --------------------------------------------------------------------- *)

Module PyStrFacts.
Import PyStr.

Lemma append_cons x (a b : string) : String x a +:+ b = String x (a +:+ b).
Proof. reflexivity. Qed.

Lemma append_assoc (a b c : string) : (a +:+ b) +:+ c = a +:+ (b +:+ c).
Proof.
  induction a as [|x a IH]; [done|]. rewrite !append_cons. by f_equal.
Qed.

Lemma startswith_append (p s : string) :
  startswith p s = true <-> exists b, s = p +:+ b.
Proof.
  revert s. induction p as [|x p IH]; intros s.
  - split; [by exists s|done].
  - destruct s as [|y s]; [split; [done|by intros [b Hb]]|].
    cbn [startswith]. rewrite andb_true_iff, IH. split.
    + intros [Hxy [b ->]]. apply Ascii.eqb_eq in Hxy as ->. by exists b.
    + intros [b Hb]. rewrite append_cons in Hb. injection Hb as -> ->.
      split; [apply Ascii.eqb_refl|by exists b].
Qed.

Lemma py_in_append (p t : string) :
  py_in p t = true <-> exists a b, t = a +:+ p +:+ b.
Proof.
  split.
  - induction t as [|x t IH]; cbn [py_in]; rewrite orb_true_iff.
    + intros [H|H]; [|done]. apply startswith_append in H as [b ->].
      by exists EmptyString, b.
    + intros [H|H].
      * apply startswith_append in H as [b Hb]. by exists EmptyString, b.
      * destruct (IH H) as (a & b & ->). by exists (String x a), b.
  - intros (a & b & ->). induction a as [|x a IH].
    + assert (H : startswith p (p +:+ b) = true)
        by (apply startswith_append; by exists b).
      change (EmptyString +:+ p +:+ b) with (p +:+ b).
      destruct (p +:+ b); cbn [py_in]; by rewrite H.
    + rewrite append_cons. cbn [py_in]. by rewrite IH, orb_true_r.
Qed.

Lemma lower_append (a b : string) : lower (a +:+ b) = lower a +:+ lower b.
Proof.
  induction a as [|x a IH]; [done|].
  rewrite append_cons. unfold lower in *. cbn [smap].
  by rewrite IH, append_cons.
Qed.

Lemma lstrip_append (a s : string) :
  first_is_space s = false -> truthy s = true ->
  lstrip (a +:+ s) = lstrip a +:+ s.
Proof.
  intros Hs Hne. induction a as [|x a IH].
  - destruct s as [|y s]; [done|]. cbn [first_is_space] in Hs.
    change (EmptyString +:+ String y s) with (String y s).
    cbn [lstrip]. by rewrite Hs.
  - rewrite append_cons. cbn [lstrip]. by destruct (is_space x).
Qed.

Lemma rstrip_append (a t : string) :
  truthy (rstrip t) = true -> rstrip (a +:+ t) = a +:+ rstrip t.
Proof.
  intros Ht. induction a as [|x a IH]; [done|].
  rewrite !append_cons. cbn [rstrip]. rewrite IH.
  destruct (a +:+ rstrip t) eqn:E; [|done].
  destruct a; [|done]. change (rstrip t = EmptyString) in E.
  by rewrite E in Ht.
Qed.

Lemma rstrip_keeps_phrase (p b : string) :
  truthy p = true -> first_is_space (last_char p) = false ->
  rstrip (p +:+ b) = p +:+ rstrip b.
Proof.
  intros Hne Hlast. induction p as [|x p IH]; [done|].
  destruct p as [|y p].
  - change (String x EmptyString +:+ b) with (String x b).
    change (String x EmptyString +:+ rstrip b) with (String x (rstrip b)).
    cbn in Hlast. cbn [rstrip]. rewrite Hlast. by destruct (rstrip b).
  - assert (E : rstrip (String y p +:+ b) = String y p +:+ rstrip b)
      by (by apply IH).
    rewrite (append_cons x), (append_cons x (String y p)).
    cbn [rstrip]. rewrite E. by rewrite append_cons.
Qed.

(** A plain phrase found in a text is found in the stripped, lower-cased
    text as well. *)
Lemma py_in_lower_strip (p t : string) :
  plain_phrase p = true -> py_in p t = true ->
  py_in p (lower (strip t)) = true.
Proof.
  unfold plain_phrase. rewrite !andb_true_iff, !negb_true_iff.
  intros [[[Hne Hlow] Hfirst] Hlast] Hin.
  apply String.eqb_eq in Hlow.
  apply py_in_append in Hin as (a & b & ->).
  apply py_in_append. unfold strip.
  assert (Hpb : first_is_space (p +:+ b) = false /\ truthy (p +:+ b) = true).
  { destruct p; [done|]. by rewrite append_cons. }
  rewrite lstrip_append by apply Hpb.
  assert (Hr : rstrip (p +:+ b) = p +:+ rstrip b)
    by (by apply rstrip_keeps_phrase).
  rewrite rstrip_append.
  - rewrite Hr, !lower_append, Hlow. by eexists _, _.
  - rewrite Hr. destruct p; [done|]. by rewrite append_cons.
Qed.

Lemma any_in_lower_strip (ps : list string) (t : string) :
  forallb plain_phrase ps = true -> any_in ps t = true ->
  any_in ps (lower (strip t)) = true.
Proof.
  unfold any_in. rewrite forallb_forall, !existsb_exists.
  intros Hplain (p & Hp & Hin). exists p. split; [done|].
  apply py_in_lower_strip; [by apply Hplain|done].
Qed.

End PyStrFacts.

(* --------------------------------------------------------------------- *)
(** ** Scanning and updating as folds over the directory listing *)
(* --------------------------------------------------------------------- *)

Module TrackerFacts.
Import PyStr RagTracker KeyFacts.

Section WithHash.
Variable md5 : string -> string.
Variable now_isoformat : string -> string.

Abbreviation fingerprint := (fingerprint md5).
Abbreviation marks := (marks md5).
Abbreviation scan_step := (scan_step md5).
Abbreviation update_step := (update_step md5 now_isoformat).
Abbreviation scan := (get_new_or_modified_documents md5).
Abbreviation update := (update_document_tracker md5 now_isoformat).

Abbreviation written := (written now_isoformat).

Lemma scan_step_marks t acc n e :
  scan_step t acc (n, e)
  = acc ++ (if marks t n e then [path_join DOCUMENTS_DIR n] else []).
Proof.
  unfold scan_step, RagTracker.marks, RagTracker.fingerprint.
  destruct (negb (mem _ _) || negb (isfile e)); [by rewrite app_nil_r|].
  destruct (get_file_hash md5 e) as [h|]; [|by rewrite app_nil_r].
  destruct (truthy h); simpl; [|by rewrite app_nil_r].
  destruct (t !! file_key n (getsize e)) as [te|]; [|done].
  destruct (String.eqb (te_hash te) h); simpl; [by rewrite app_nil_r|done].
Qed.

Lemma update_step_fingerprint t n e :
  update_step t (n, e)
  = match fingerprint n e with
    | Some (h, size) => <[file_key n size := written n h size]> t
    | None => t
    end.
Proof.
  unfold update_step, RagTracker.update_step, RagTracker.fingerprint.
  destruct (negb (mem _ _) || negb (isfile e)); [done|].
  destruct (get_file_hash md5 e) as [h|]; [|done].
  by destruct (truthy h).
Qed.

Lemma scan_fold t l acc :
  foldl (scan_step t) acc l
  = acc ++ flat_map (fun '(n, e) =>
              if marks t n e then [path_join DOCUMENTS_DIR n] else []) l.
Proof.
  revert acc. induction l as [|[n e] l IH]; intros acc; cbn [foldl flat_map].
  - by rewrite app_nil_r.
  - rewrite IH, scan_step_marks. by rewrite <- app_assoc.
Qed.

(** Keys no listed file produces keep their value. *)
Lemma update_fold_other l t k :
  (forall n e h size, (n, e) ∈ l -> fingerprint n e = Some (h, size) ->
                      file_key n size <> k) ->
  foldl update_step t l !! k = t !! k.
Proof.
  revert t. induction l as [|[n e] l IH]; intros t Hk; cbn [foldl]; [done|].
  rewrite IH.
  - rewrite update_step_fingerprint.
    destruct (fingerprint n e) as [[h size]|] eqn:F; [|done].
    apply lookup_insert_ne. eapply Hk; [|exact F]. set_solver.
  - intros n' e' h' size' Hin. apply Hk. set_solver.
Qed.

(** After the update every scanned file has its digest under its key. *)
Lemma update_fold_lookup l t n e h size :
  NoDup l.*1 -> (n, e) ∈ l -> fingerprint n e = Some (h, size) ->
  foldl update_step t l !! file_key n size = Some (written n h size).
Proof.
  revert t. induction l as [|[n' e'] l IH]; intros t Hnd Hin F; cbn [foldl].
  - set_solver.
  - rewrite fmap_cons in Hnd. apply NoDup_cons in Hnd as [Hfresh Hnd].
    apply elem_of_cons in Hin as [Heq|Hin].
    + injection Heq as <- <-.
      rewrite update_fold_other.
      * rewrite update_step_fingerprint, F. apply lookup_insert_eq.
      * intros n2 e2 h2 size2 Hin2 _ Ekey.
        apply file_key_inj_name in Ekey. subst n2.
        apply Hfresh. apply list_elem_of_fmap. by exists (n, e2).
    + by apply IH.
Qed.

(** Whatever the update leaves under a key was there before or is the
    digest of a listed file with that key. *)
Lemma update_fold_inv l t k v :
  foldl update_step t l !! k = Some v ->
  t !! k = Some v \/
  exists n e h size, (n, e) ∈ l /\ fingerprint n e = Some (h, size) /\
                     k = file_key n size /\ v = written n h size.
Proof.
  revert t. induction l as [|[n e] l IH]; intros t H; cbn [foldl] in H; [by left|].
  apply IH in H as [H|(n2 & e2 & h2 & s2 & Hin & F & -> & ->)].
  - rewrite update_step_fingerprint in H.
    destruct (fingerprint n e) as [[h size]|] eqn:F; [|by left].
    destruct (decide (file_key n size = k)) as [<-|Hne].
    + rewrite lookup_insert_eq in H. injection H as <-.
      right. exists n, e, h, size. set_solver.
    + rewrite lookup_insert_ne in H by done. by left.
  - right. exists n2, e2, h2, s2. set_solver.
Qed.

(** The update only adds and overwrites entries. *)
Lemma update_fold_keeps l t k :
  is_Some (t !! k) -> is_Some (foldl update_step t l !! k).
Proof.
  revert t. induction l as [|[n e] l IH]; intros t H; cbn [foldl]; [done|].
  apply IH. rewrite update_step_fingerprint.
  destruct (fingerprint n e) as [[h size]|]; [|done].
  rewrite lookup_insert. by case_decide.
Qed.

Lemma flat_map_nil {A B} (g : A -> list B) (l : list A) :
  (forall x, x ∈ l -> g x = []) -> flat_map g l = [].
Proof.
  induction l as [|a l IH]; intros H; simpl; [done|].
  rewrite H, IH; set_solver.
Qed.

Lemma flat_map_single {A B} (g : A -> list B) (l : list A) (x : A) (y : B) :
  NoDup l -> x ∈ l -> g x = [y] ->
  (forall z, z ∈ l -> z <> x -> g z = []) ->
  flat_map g l = [y].
Proof.
  induction l as [|a l IH]; intros Hnd Hin Hx Hz; simpl; [set_solver|].
  apply NoDup_cons in Hnd as [Hfresh Hnd].
  apply elem_of_cons in Hin as [->|Hin].
  - rewrite Hx, flat_map_nil; [done|].
    intros z Hzl. apply Hz; set_solver.
  - rewrite (Hz a); [|set_solver|set_solver].
    rewrite IH; try done.
    intros z Hzl. apply Hz; set_solver.
Qed.

(** A file the last update has seen unchanged is not marked. *)
Lemma updated_not_marked d t n e :
  d !! n = Some e ->
  marks (foldl update_step t (map_to_list d)) n e = false.
Proof.
  intros Hd. unfold marks, RagTracker.marks.
  destruct (fingerprint n e) as [[h size]|] eqn:F; [|done].
  rewrite (update_fold_lookup _ _ n e h size); simpl.
  - by rewrite String.eqb_refl.
  - apply NoDup_fst_map_to_list.
  - by apply elem_of_map_to_list.
  - done.
Qed.

End WithHash.
End TrackerFacts.

(* --------------------------------------------------------------------- *)
(** ** Claims on the document change tracker *)
(* --------------------------------------------------------------------- *)

Module TrackerClaims.
Import PyStr RagTracker KeyFacts TrackerFacts Fixtures.

(** C3. A scan, the tracker update that closes the processing cycle, and a
    second scan of the same directory with no file touched in between: the
    second scan returns no path at all. This holds for every directory
    content, every tracker file found at the start and every digest
    function. *)
Theorem rescan_after_update_marks_nothing
    (md5 now_isoformat : string -> string) (fs : filesystem) :
  let after_scan := (get_new_or_modified_documents md5 fs).2 in
  let after_update := update_document_tracker md5 now_isoformat after_scan in
  (get_new_or_modified_documents md5 after_update).1 = [].
Proof.
  destruct fs as [[d|] tf]; cbn.
  - rewrite scan_fold. apply flat_map_nil.
    intros [n e] Hin. apply elem_of_map_to_list in Hin.
    unfold load_document_tracker; cbn.
    by rewrite updated_not_marked.
  - by rewrite map_to_list_empty.
Qed.



(** C4. The scan misses a modified file, against what its docstring
    promises (the list of the documents that are new or modified since the
    last processing). [policy.txt] is indexed with a 5-byte content, then
    edited to an 11-byte content and indexed again, then put back to the
    5-byte content. Its content has changed since the last tracker update,
    yet the rescan returns nothing: entries are keyed by name and size and
    never removed, and the old key [policy.txt_5] still holds the matching
    digest. *)
Theorem reverted_file_not_marked :
  let dir data : gmap string dir_entry :=
    {[ "policy.txt" := RegularFile data true ]} in
  let scan := get_new_or_modified_documents toy_md5 in
  let update := update_document_tracker toy_md5 toy_clock in
  let fs1 := update {| documents := Some (dir "short");
                       tracker_json := NoTrackerFile |} in
  let fs2 := update (with_documents (dir "longer text") fs1) in
  let fs3 := with_documents (dir "short") fs2 in
  (scan (with_documents (dir "longer text") fs1)).1 = ["documents/policy.txt"]
  /\ documents fs2 = Some (dir "longer text")
  /\ toy_md5 "short" <> toy_md5 "longer text"
  /\ (scan fs3).1 = [].
Proof. vm_compute. repeat split; discriminate. Qed.

(** How far the defect reaches. One supported, readable file gets a new
    content with a new digest after a tracker update. When the tracker
    held, before that update, no entry under the file's new name-and-size
    key with the new digest, the rescan does return exactly the path of
    that file, and the next tracker update stores the new digest under the
    file's key. *)
Lemma rescan_marks_exactly_changed_file
    (md5 now_isoformat : string -> string)
    (d : gmap string dir_entry) (tf : tracker_file)
    (name data0 data1 : string) :
  let fs0 := {| documents := Some d; tracker_json := tf |} in
  let fs1 := update_document_tracker md5 now_isoformat fs0 in
  let fs2 := with_documents (<[name := RegularFile data1 true]> d) fs1 in
  let fs3 := update_document_tracker md5 now_isoformat fs2 in
  let k := file_key name (String.length data1) in
  d !! name = Some (RegularFile data0 true) ->
  mem (lower (splitext_ext name)) supported_extensions = true ->
  md5 data1 <> md5 data0 ->
  md5 data1 <> EmptyString ->
  (forall te, load_document_tracker fs0 !! k = Some te ->
              te_hash te <> md5 data1) ->
  (get_new_or_modified_documents md5 fs2).1 = [path_join DOCUMENTS_DIR name]
  /\ exists te, load_document_tracker fs3 !! k = Some te
                /\ te_hash te = md5 data1.
Proof.
  intros fs0 fs1 fs2 fs3 k Hd Hext Hdiff Hne Hstale.
  assert (F1 : fingerprint md5 name (RegularFile data1 true)
               = Some (md5 data1, String.length data1)).
  { unfold fingerprint. rewrite Hext. cbn.
    destruct (md5 data1); [done|reflexivity]. }
  split.
  - cbn. rewrite scan_fold.
    apply (flat_map_single _ _ (name, RegularFile data1 true)).
    + apply NoDup_map_to_list.
    + apply elem_of_map_to_list, lookup_insert_eq.
    + unfold marks. rewrite F1.
      destruct (foldl _ _ _ !! _) as [te|] eqn:L; [|done].
      apply update_fold_inv in L as [L|(n & e & h & sz & Hin & F & Ek & ->)].
      * apply Hstale in L. apply String.eqb_neq in L. by rewrite L.
      * apply file_key_inj_name in Ek. subst n.
        apply elem_of_map_to_list in Hin. rewrite Hd in Hin.
        injection Hin as <-. cbn.
        unfold fingerprint in F. rewrite Hext in F. cbn in F.
        destruct (truthy (md5 data0)); [|done]. injection F as <- _.
        assert (E : String.eqb (md5 data0) (md5 data1) = false).
        { apply String.eqb_neq. congruence. }
        by rewrite E.
    + intros [n e] Hin Hne'. apply elem_of_map_to_list in Hin.
      destruct (decide (n = name)) as [->|Hn].
      * rewrite lookup_insert_eq in Hin. congruence.
      * rewrite lookup_insert_ne in Hin by done.
        unfold load_document_tracker; cbn.
        by rewrite updated_not_marked.
  - exists (written now_isoformat name (md5 data1) (String.length data1)).
    split; [|done]. cbn.
    apply (update_fold_lookup md5 now_isoformat _ _ name
             (RegularFile data1 true));
      [apply NoDup_fst_map_to_list| |done].
    apply elem_of_map_to_list, lookup_insert_eq.
Qed.

Lemma rescan_marks_exactly_changed_file_witness :
  let d : gmap string dir_entry :=
    {[ "policy.txt" := RegularFile "short" true;
       "terms.pdf" := RegularFile "terms" true ]} in
  let fs0 := {| documents := Some d; tracker_json := NoTrackerFile |} in
  let fs1 := update_document_tracker toy_md5 toy_clock fs0 in
  let fs2 :=
    with_documents (<["policy.txt" := RegularFile "longer text" true]> d) fs1 in
  let fs3 := update_document_tracker toy_md5 toy_clock fs2 in
  (get_new_or_modified_documents toy_md5 fs2).1 = ["documents/policy.txt"]
  /\ exists te, load_document_tracker fs3 !! "policy.txt_11" = Some te
                /\ te_hash te = "md5:longer text".
Proof.
  apply (rescan_marks_exactly_changed_file toy_md5 toy_clock
           {[ "policy.txt" := RegularFile "short" true;
              "terms.pdf" := RegularFile "terms" true ]}
           NoTrackerFile "policy.txt" "short" "longer text").
  - vm_compute. reflexivity.
  - vm_compute. reflexivity.
  - vm_compute. discriminate.
  - vm_compute. discriminate.
  - intros te H. vm_compute in H. discriminate.
Defined.

(** X1. The key written for a file identifies it: two keys are equal only for
    the same file name (the size is the text after the last underscore). *)
Theorem tracker_key_identifies_file (n1 n2 : string) (s1 s2 : nat) :
  file_key n1 s1 = file_key n2 s2 -> n1 = n2.
Proof. apply file_key_inj_name. Qed.

Lemma tracker_key_identifies_file_witness : "policy.txt" = "policy.txt".
Proof.
  apply (tracker_key_identifies_file "policy.txt" "policy.txt" 500 500).
  reflexivity.
Defined.

(** X2. A tracker update never drops an entry: every key of the tracker file
    read at the start is still a key of the tracker afterwards. *)
Theorem update_keeps_tracked_keys
    (md5 now_isoformat : string -> string) (fs : filesystem) (k : string) :
  is_Some (load_document_tracker fs !! k) ->
  is_Some (load_document_tracker
             (update_document_tracker md5 now_isoformat fs) !! k).
Proof.
  intros H. unfold update_document_tracker.
  destruct (documents fs) as [d|]; [|done].
  cbn. by apply update_fold_keeps.
Qed.

Lemma update_keeps_tracked_keys_witness :
  let fs :=
    {| documents := Some {[ "policy.txt" := RegularFile "short" true ]};
       tracker_json := TrackerJson
         {[ "gone.txt_4" := written toy_clock "gone.txt" "md5:gone" 4 ]} |} in
  is_Some (load_document_tracker
             (update_document_tracker toy_md5 toy_clock fs) !! "gone.txt_4").
Proof.
  apply (update_keeps_tracked_keys toy_md5 toy_clock
           {| documents := Some {[ "policy.txt" := RegularFile "short" true ]};
              tracker_json := TrackerJson
                {[ "gone.txt_4" := written toy_clock "gone.txt" "md5:gone" 4 ]} |}
           "gone.txt_4").
  vm_compute. by eexists.
Defined.

End TrackerClaims.

(* --------------------------------------------------------------------- *)
(** ** Calls that never raise *)
(* --------------------------------------------------------------------- *)

Module MonadFacts.
Import PyStr Runtime DatabaseUtils RagSearch AgentTools.
Local Open Scope py_scope.

Lemma returns_ret {A} (a : A) : returns (ret a).
Proof. intros w. by exists a, w. Qed.

Lemma returns_bind {A B} (m : M A) (k : A -> M B) :
  returns m -> (forall a, returns (k a)) -> returns (bind m k).
Proof.
  intros Hm Hk w. unfold bind.
  destruct (Hm w) as (a & w' & ->). apply Hk.
Qed.

(** A [try] whose handler returns swallows every exception of its body. *)
Lemma returns_try_except {A} (body : M A) (handler : exn -> M A) :
  (forall e, returns (handler e)) -> returns (try_except body handler).
Proof.
  intros Hh w. unfold try_except.
  destruct (body w) as [[a|e] w']; [by exists a, w'|apply Hh].
Qed.

Lemma returns_if {A} (b : bool) (m1 m2 : M A) :
  returns m1 -> returns m2 -> returns (if b then m1 else m2).
Proof. by destruct b. Qed.

Create HintDb returns.

#[export] Hint Resolve returns_ret returns_bind returns_try_except returns_if
  : returns.

Ltac returns_handler :=
  let e := fresh "e" in intros e; destruct e; apply returns_ret.

Lemma create_support_ticket_returns user_name issue :
  returns (create_support_ticket user_name issue).
Proof. apply returns_try_except. returns_handler. Qed.

Lemma update_ticket_response_returns ticket_id response status :
  returns (update_ticket_response ticket_id response status).
Proof. apply returns_try_except. returns_handler. Qed.

Lemma get_ticket_by_id_returns ticket_id :
  returns (get_ticket_by_id ticket_id).
Proof. apply returns_try_except. returns_handler. Qed.

Lemma query_ticket_answer_returns question :
  returns (query_ticket_answer question).
Proof. apply returns_try_except. returns_handler. Qed.

Lemma query_faq_returns question : returns (query_faq question).
Proof. apply returns_try_except. returns_handler. Qed.

Lemma query_team_info_returns question : returns (query_team_info question).
Proof.
  unfold query_team_info.
  destruct (extract_name_from_question question) as [name|]; auto with returns.
  destruct (negb (truthy name)); auto with returns.
  apply returns_try_except. returns_handler.
Qed.

Lemma return_if_found_returns m rest :
  returns m -> returns rest -> returns (return_if_found m rest).
Proof.
  intros Hm Hr. apply returns_bind; [done|].
  intros [a|]; [|done]. destruct (truthy a); auto with returns.
Qed.

Lemma database_query_tool_returns question :
  returns (database_query_tool question).
Proof.
  unfold database_query_tool, skipped.
  repeat apply return_if_found_returns;
    auto using query_faq_returns, query_team_info_returns with returns.
Qed.

Lemma rag_search_returns query : returns (rag_search query).
Proof. apply returns_try_except. intros e. apply returns_ret. Qed.

End MonadFacts.

(* --------------------------------------------------------------------- *)
(** ** Claims on the four capabilities *)
(* --------------------------------------------------------------------- *)

Module ToolClaims.
Import PyStr Runtime DatabaseUtils RagSearch AgentTools MonadFacts Fixtures.
Local Open Scope py_scope.

(** C5. Whatever the arguments, the content of the store, the schedule of
    driver failures (refused connections, failing statements and commits)
    and the conduct of the retrieval services (each call may raise), the
    four capabilities hand back a text and never raise. The ticket-creation
    capability first reads the user's reply from the console; it returns a
    text as soon as the console delivers a line. *)
Theorem capabilities_return_text :
  (forall question w,
     exists text w', query_database_tool question w = (Return text, w'))
  /\ (forall question w,
        exists text w', query_rag_tool question w = (Return text, w'))
  /\ (forall user_question user_name w,
        stdin w <> [] ->
        exists text w',
          create_support_ticket_tool user_question user_name w
          = (Return text, w'))
  /\ (forall ticket_id w,
        exists text w', check_ticket_status_tool ticket_id w = (Return text, w')).
Proof.
  repeat split.
  - intros question. apply returns_try_except. intros e. apply returns_ret.
  - intros question. apply returns_try_except. intros e. apply returns_ret.
  - intros user_question user_name w Hin.
    unfold create_support_ticket_tool, bind, input.
    destruct (stdin w) as [|line rest]; [done|].
    destruct (negb (mem (lower (strip line)) ["yes"; "y"])); [by eexists _, _|].
    destruct (create_support_ticket_returns user_name user_question
                (set_stdin rest w)) as ([id|] & w' & ->).
    + destruct (truthy id); by eexists _, _.
    + by eexists _, _.
  - intros ticket_id w. unfold check_ticket_status_tool, bind.
    destruct (get_ticket_by_id_returns ticket_id w) as ([t|] & w' & ->).
    + destruct (t_response t) as [r|]; [destruct (truthy r)|]; by eexists _, _.
    + by eexists _, _.
Qed.

(** The connection is refused while the user has confirmed: the capability
    answers with its failure text. *)
Lemma capabilities_return_text_witness :
  exists text w',
    create_support_ticket_tool "printer on fire" "bob"
      (world_of alice_db [true] ["yes"]) = (Return text, w').
Proof.
  apply (proj1 (proj2 (proj2 capabilities_return_text))).
  simpl. discriminate.
Defined.

Example refused_connection_gives_failure_text :
  fst (create_support_ticket_tool "printer on fire" "bob"
         (world_of alice_db [true] ["yes"]))
  = Return "Failed to create a support ticket. Please try again later.".
Proof. reflexivity. Qed.

Example missing_ticket_gives_not_found_text :
  fst (check_ticket_status_tool "TKT-ABCDEF12" (world_of alice_db [] []))
  = Return "Ticket TKT-ABCDEF12 not found.".
Proof. reflexivity. Qed.

(** C7. When the reply to the confirmation prompt is not an affirmative one
    (after removal of surrounding blanks and in lower case, neither ["yes"]
    nor ["y"]), the capability returns the no-op text and leaves the store
    as it was; and whenever a call changes the store, the reply it read was
    affirmative. *)
Theorem ticket_only_after_affirmative_reply
    (user_question user_name : string) (w : world) :
  (forall reply rest,
     stdin w = reply :: rest -> affirmative reply = false ->
     create_support_ticket_tool user_question user_name w
     = (Return "Okay, no ticket was created.", set_stdin rest w)
     /\ db (set_stdin rest w) = db w)
  /\ (forall out w',
        create_support_ticket_tool user_question user_name w = (out, w') ->
        db w' <> db w ->
        exists reply rest, stdin w = reply :: rest /\ affirmative reply = true).
Proof.
  unfold create_support_ticket_tool, bind, input, affirmative. split.
  - intros reply rest -> Hno. by rewrite Hno.
  - intros out w' Hrun Hchanged.
    destruct (stdin w) as [|reply rest]; [by injection Hrun as _ <-|].
    destruct (mem (lower (strip reply)) ["yes"; "y"]) eqn:Hyes;
      [by exists reply, rest|].
    cbn in Hrun. by injection Hrun as _ <-.
Qed.

Lemma ticket_only_after_affirmative_reply_witness :
  create_support_ticket_tool "printer on fire" "bob"
    (world_of alice_db [] ["no thanks"; "yes"])
  = (Return "Okay, no ticket was created.",
     set_stdin ["yes"] (world_of alice_db [] ["no thanks"; "yes"]))
  /\ db (set_stdin ["yes"] (world_of alice_db [] ["no thanks"; "yes"]))
     = db (world_of alice_db [] ["no thanks"; "yes"]).
Proof.
  apply (proj1 (ticket_only_after_affirmative_reply
                  "printer on fire" "bob"
                  (world_of alice_db [] ["no thanks"; "yes"]))
               "no thanks" ["yes"]).
  - reflexivity.
  - reflexivity.
Defined.

Example confirmed_ticket_is_stored :
  let run := create_support_ticket_tool "printer on fire" "bob"
               (world_of alice_db [] [" Yes "]) in
  fst run
  = Return "Support ticket #TKT-3F2A9C1B created successfully. Our team will respond soon."
  /\ option_map (map t_issue) (tickets (db (snd run)))
     = Some ["printer on fire"].
Proof. split; reflexivity. Qed.

(** X3. A ticket id that equals, for the server, the id of no row of the
    table is reported as not found, with no exception, also when the table
    is missing or the driver fails. *)
Theorem unknown_ticket_is_not_found (ticket_id : string) (w : world) :
  (forall rows t, tickets (db w) = Some rows -> In t rows ->
                  sql_eq (db w) (t_ticket_id t) ticket_id = false) ->
  exists w',
    check_ticket_status_tool ticket_id w
    = (Return ("Ticket " +:+ ticket_id +:+ " not found."), w').
Proof.
  intros Hnone.
  assert (Hsel : select_ticket_by_id ticket_id (db w) = Return None
                 \/ exists e, select_ticket_by_id ticket_id (db w) = Raise e).
  { unfold select_ticket_by_id, no_such_table.
    destruct (tickets (db w)) as [rows|] eqn:Hrows; [left|right; by eexists].
    f_equal. destruct (List.find _ rows) as [t|] eqn:Hfind; [|done].
    apply find_some in Hfind as [Hin Heq].
    by rewrite (Hnone rows t) in Heq. }
  unfold check_ticket_status_tool, get_ticket_by_id, try_except, bind,
    get_db_connection, cursor_execute, next_fault, get_world, lift, bind,
    raise, ret.
  destruct (db_faults w) as [|[|] [|[|] fs]] eqn:Hf;
    cbn -[select_ticket_by_id]; rewrite ?Hf; cbn -[select_ticket_by_id];
    try (by eexists);
    destruct Hsel as [->|[e ->]]; try destruct e; by eexists.
Qed.

Lemma unknown_ticket_is_not_found_witness :
  exists w',
    check_ticket_status_tool "TKT-ABCDEF12" (world_of answered_twice_db [] [])
    = (Return ("Ticket " +:+ "TKT-ABCDEF12" +:+ " not found."), w').
Proof.
  apply (unknown_ticket_is_not_found "TKT-ABCDEF12"
           (world_of answered_twice_db [] [])).
  intros rows t Hrows Hin. injection Hrows as <-.
  destruct Hin as [<-|[<-|[]]]; reflexivity.
Defined.

End ToolClaims.

(* --------------------------------------------------------------------- *)
(** ** Claim on the retrieval answerer *)
(* --------------------------------------------------------------------- *)

Module RagClaims.
Import PyStr PyStrFacts Runtime RagSearch MonadFacts Fixtures.
Local Open Scope py_scope.

Lemma rag_search_keeps_world query w r w' :
  rag_search query w = (r, w') -> w' = w.
Proof.
  unfold rag_search, try_except, bind, service, ret.
  destruct (get_vectorstore (rag w)); [|by intros [= _ <-]].
  destruct (collection_count (rag w)) as [n|]; [|by intros [= _ <-]].
  destruct (n =? 0); [by intros [= _ <-]|].
  destruct (chat_groq (rag w)); [|by intros [= _ <-]].
  destruct (retriever_invoke (rag w) query) as [[|d docs]|];
    [by intros [= _ <-]| |by intros [= _ <-]].
  destruct (llm_invoke (rag w) query _) as [content|]; [|by intros [= _ <-]].
  destruct (any_in _ _); by intros [= _ <-].
Qed.

Lemma not_found_phrases_plain : forallb plain_phrase not_found_phrases = true.
Proof. reflexivity. Qed.

(** C8. [rag_search] never raises, whatever the services do. It returns
    [None] when the index holds no chunk or the retriever finds none for
    the query, and when the text of the model contains one of the four
    "not found" phrases, as written or in another letter case (the code
    looks for them in the text with surrounding blanks removed and put in
    lower case). When chunks are found, every service answers and the text
    contains none of the phrases, it returns that text (with its
    surrounding blanks removed). *)
Theorem rag_search_null_or_answer (query : string) (w : world) :
  (exists r, rag_search query w = (Return r, w))
  /\ (collection_count (rag w) = Return 0
      \/ retriever_invoke (rag w) query = Return [] ->
      rag_search query w = (Return None, w))
  /\ (forall docs content,
        retriever_invoke (rag w) query = Return docs ->
        llm_invoke (rag w) query (context_of docs) = Return content ->
        any_in not_found_phrases content = true
        \/ any_in not_found_phrases (lower (strip content)) = true ->
        rag_search query w = (Return None, w))
  /\ (forall n docs content,
        get_vectorstore (rag w) = Return tt ->
        collection_count (rag w) = Return (S n) ->
        chat_groq (rag w) = Return tt ->
        retriever_invoke (rag w) query = Return docs -> docs <> [] ->
        llm_invoke (rag w) query (context_of docs) = Return content ->
        any_in not_found_phrases (lower (strip content)) = false ->
        rag_search query w = (Return (Some (strip content)), w)).
Proof.
  repeat split.
  - destruct (rag_search_returns query w) as (r & w' & H).
    exists r. by rewrite H, (rag_search_keeps_world _ _ _ _ H).
  - intros H. unfold rag_search, try_except, bind, service, ret.
    destruct (get_vectorstore (rag w)); [|done].
    destruct (collection_count (rag w)) as [n|] eqn:Hc; [|done].
    destruct (n =? 0) eqn:Hn; [done|].
    destruct H as [H|H]; [injection H as ->; done|].
    destruct (chat_groq (rag w)); [|done]. by rewrite H.
  - intros docs content Hdocs Hllm Hphrase.
    assert (Hfound : any_in not_found_phrases (lower (strip content)) = true).
    { destruct Hphrase as [H|H]; [|done].
      by apply any_in_lower_strip; [apply not_found_phrases_plain|]. }
    clear Hphrase. rename Hfound into Hphrase.
    unfold rag_search, try_except, bind, service, ret.
    destruct (get_vectorstore (rag w)); [|done].
    destruct (collection_count (rag w)) as [n|]; [|done].
    destruct (n =? 0); [done|].
    destruct (chat_groq (rag w)); [|done].
    rewrite Hdocs. destruct docs as [|d docs]; [done|].
    by rewrite Hllm, Hphrase.
  - intros n docs content Hvs Hc Hchat Hdocs Hne Hllm Hphrase.
    unfold rag_search, try_except, bind, service, ret.
    rewrite Hvs, Hc. cbn [Nat.eqb]. rewrite Hchat, Hdocs.
    destruct docs as [|d docs]; [done|].
    by rewrite Hllm, Hphrase.
Qed.

Lemma rag_search_null_or_answer_witness :
  rag_search "What is the refund policy?" refund_world
  = (Return (Some "Refunds are issued within 14 days."), refund_world)
  /\ rag_search "Who won the cup?" refund_world = (Return None, refund_world)
  /\ rag_search "anything" (world_of alice_db [] [])
     = (Return None, world_of alice_db [] []).
Proof.
  split; [|split].
  - apply (proj2 (proj2 (proj2
             (rag_search_null_or_answer "What is the refund policy?"
                refund_world)))
             1 ["Refunds are issued within 14 days.";
                "Contact billing for refunds."]
             "  Refunds are issued within 14 days. ");
      try reflexivity.
    discriminate.
  - apply (proj1 (proj2 (proj2
             (rag_search_null_or_answer "Who won the cup?" refund_world)))
             ["Refunds are issued within 14 days.";
              "Contact billing for refunds."]
             "I'm sorry, I Couldn't Find that in the provided context.");
      try reflexivity.
    right. reflexivity.
  - apply (proj1 (proj2
             (rag_search_null_or_answer "anything" (world_of alice_db [] [])))).
    left. reflexivity.
Defined.

End RagClaims.

(* --------------------------------------------------------------------- *)
(** ** Claims on the structured lookup *)
(* --------------------------------------------------------------------- *)

Module LookupClaims.
Import PyStr Runtime DatabaseUtils AgentTools LookupOrder MonadFacts Fixtures.
Local Open Scope py_scope.

(** A [try] around a body that never raises is that body. *)
Lemma try_except_returns_eq {A} (body : M A) (handler : exn -> M A) w :
  returns body -> try_except body handler w = body w.
Proof.
  intros Hb. unfold try_except. by destruct (Hb w) as (a & w' & ->).
Qed.

(** C1, as stated, fails. ["who is alice"] holds none of the general
    keywords; the FAQ has an entry that matches it and the team directory
    has Alice. The fixed order ticket, FAQ, team would yield the FAQ answer;
    the tool returns the team record. *)
Lemma team_before_faq_for_people_question :
  let q := "who is alice" in
  let w := world_of alice_db [] [] in
  is_general_question q = false
  /\ fst (query_ticket_answer q w) = Return None
  /\ fst (query_faq q w) = Return (Some "Alice answers support questions.")
  /\ fst (query_team_info q w) = Return (Some "Alice: Support lead")
  /\ fst (first_hit (stated_order q) w)
     = Return (Some "Alice answers support questions.")
  /\ fst (query_database_tool q w) = Return "Alice: Support lead".
Proof. vm_compute. repeat split. Qed.

Ltac step_source :=
  match goal with
  | |- context [match ?m ?w with _ => _ end] =>
      is_var w;
      let a := fresh "a" in let e := fresh "e" in let w' := fresh "w" in
      destruct (m w) as [[[a|]|e] w']; try reflexivity;
      try (destruct (truthy a); try reflexivity)
  end.

(** C1, amended. The tool tries the answered tickets first; then, for a
    question that holds a general keyword, the FAQ and after it the team
    directory, and for every other question the team directory and after it
    the FAQ. It returns the first non-empty text found in that order, and
    the marker when there is none. A source that fails counts as a miss. *)
Theorem lookup_follows_question_kind (question : string) (w : world) :
  query_database_tool question w
  = bind (first_hit (lookup_order question))
         (fun r => ret (answer_or_marker r)) w.
Proof.
  unfold query_database_tool.
  rewrite try_except_returns_eq.
  2:{ apply returns_bind; [apply query_ticket_answer_returns|].
      intros [a|]; [destruct (truthy a)|]; auto with returns;
        (apply returns_bind; [apply database_query_tool_returns|]);
        intros r; destruct (found r); apply returns_ret. }
  unfold lookup_order, database_query_tool, return_if_found, skipped.
  destruct (is_general_question question); cbn [negb first_hit];
    unfold bind, ret, answer_or_marker, not_found; cbn [default found response];
    repeat step_source.
Qed.

(** *** The most recent answered ticket *)

Section OrderBy.
Context {A : Type} (le : A -> A -> bool).
Hypothesis le_total : forall a b, le a b = true \/ le b a = true.
Hypothesis le_trans : forall a b c, le a b = true -> le b c = true -> le a c = true.

Lemma insert_sorted_In x y l : In y (insert_sorted le x l) <-> y = x \/ In y l.
Proof.
  induction l as [|h l IH]; simpl; [split; intros [H|H]; auto; done|].
  destruct (le x h); simpl; [split; intros [H|H]; auto|].
  rewrite IH. tauto.
Qed.

Lemma order_by_In y l : In y (order_by le l) <-> In y l.
Proof.
  induction l as [|h l IH]; simpl; [done|].
  rewrite insert_sorted_In, IH. split; intros [H|H]; auto.
Qed.

(** The first row of an ordered selection precedes every selected row. *)
Lemma order_by_head_least l x rest :
  order_by le l = x :: rest -> forall y, In y l -> le x y = true.
Proof.
  revert x rest. induction l as [|a l IH]; intros x rest E y Hy; [done|].
  simpl in E. destruct (order_by le l) as [|h s] eqn:El.
  - injection E as <- <-. destruct Hy as [<-|Hy].
    + by destruct (le_total a a).
    + apply (order_by_In y l) in Hy. rewrite El in Hy. done.
  - simpl in E. destruct (le a h) eqn:Hah.
    + injection E as <- <-. destruct Hy as [<-|Hy].
      * by destruct (le_total a a).
      * eapply le_trans; [exact Hah|]. by eapply IH.
    + injection E as <- <-. destruct Hy as [<-|Hy].
      * destruct (le_total a h); congruence.
      * by eapply IH.
Qed.
End OrderBy.

Lemma select_ticket_answer_newest question d rows :
  tickets d = Some rows ->
  (exists t, In t rows /\ answered d question t) ->
  exists t, newest_answered d question rows t
            /\ select_ticket_answer question d = Return (t_response t).
Proof.
  intros Hrows (t0 & Hin0 & Hq0 & Hr0).
  unfold select_ticket_answer. rewrite Hrows.
  set (keep := fun t : ticket =>
         sql_eq d (t_issue t) question && bool_decide (is_Some (t_response t))).
  set (le := fun a b : ticket => (t_created_at b <=? t_created_at a)%N).
  assert (Hkeep : forall t, In t (List.filter keep rows)
                            <-> In t rows /\ answered d question t).
  { intros t. rewrite filter_In. unfold keep, answered.
    rewrite andb_true_iff, bool_decide_eq_true. done. }
  destruct (order_by le (List.filter keep rows)) as [|t rest] eqn:E.
  - assert (Hin : In t0 (order_by le (List.filter keep rows))).
    { apply order_by_In, Hkeep. by repeat split. }
    rewrite E in Hin. done.
  - exists t. split; [|done].
    assert (Hin : In t (List.filter keep rows)).
    { apply (order_by_In le). rewrite E. by left. }
    apply Hkeep in Hin as [Hin Hans]. repeat split; try done; try apply Hans.
    intros t' Hin' Hans'.
    assert (Hle : le t t' = true).
    { eapply (order_by_head_least le); [| |exact E|by apply Hkeep].
      - intros a b. unfold le. rewrite !N.leb_le. lia.
      - intros a b c. unfold le. rewrite !N.leb_le. lia. }
    unfold le in Hle. by apply N.leb_le in Hle.
Qed.

(** With no driver failure during the connection and the statement, the
    lookup yields what the statement selects. *)
Lemma query_ticket_answer_selects question w r :
  no_fault_within 2 w ->
  select_ticket_answer question (db w) = Return r ->
  exists w', query_ticket_answer question w = (Return r, w').
Proof.
  intros Hnf Hsel.
  assert (H0 := Hnf 0). assert (H1 := Hnf 1).
  unfold query_ticket_answer, try_except, bind, get_db_connection,
    cursor_execute, next_fault, get_world, lift, bind, ret.
  destruct (db_faults w) as [|b0 [|b1 fs]] eqn:Hf; cbn in H0, H1.
  - cbn -[select_ticket_answer]. rewrite Hf. cbn -[select_ticket_answer].
    rewrite Hsel. destruct r; by eexists.
  - destruct b0; [exfalso; apply H0; [lia|done]|].
    cbn -[select_ticket_answer]. rewrite Hsel. destruct r; by eexists.
  - destruct b0; [exfalso; apply H0; [lia|done]|].
    destruct b1; [exfalso; apply H1; [lia|done]|].
    cbn -[select_ticket_answer]. rewrite Hsel. destruct r; by eexists.
Qed.

(** C2, as stated, fails. A ticket on ["who is alice"] is created through
    the ticket capability and closed by support with an empty response: the
    stored response is not NULL. The tool does not return that response; it
    goes on to the team directory. *)
Lemma empty_response_is_not_reused :
  let q := "who is alice" in
  let w0 := world_of alice_db [] ["yes"] in
  let w1 := snd (create_support_ticket_tool q "bob" w0) in
  let w2 := snd (update_ticket_response "TKT-3F2A9C1B" EmptyString "closed" w1) in
  option_map (map (fun t => (t_issue t, t_response t))) (tickets (db w2))
  = Some [(q, Some EmptyString)]
  /\ fst (query_ticket_answer q w2) = Return (Some EmptyString)
  /\ fst (query_database_tool q w2) = Return "Alice: Support lead".
Proof. vm_compute. repeat split. Qed.

(** C2, amended. The store holds a ticket whose issue equals the query
    for the server (the same text, or a text the collation of the server
    takes for equal) and whose response is not NULL, the connection and the
    ticket statement do not fail, and no most recent such ticket has an
    empty response. Then the tool returns, verbatim, the response of a most
    recent such ticket, whatever the FAQ and the team directory hold for
    the same text. *)
Theorem answered_ticket_is_reused
    (question : string) (w : world) (rows : list ticket) :
  tickets (db w) = Some rows ->
  no_fault_within 2 w ->
  (exists t, In t rows /\ answered (db w) question t) ->
  (forall t, newest_answered (db w) question rows t ->
             t_response t <> Some EmptyString) ->
  exists t r w',
    newest_answered (db w) question rows t /\ t_response t = Some r
    /\ query_database_tool question w = (Return r, w').
Proof.
  intros Hrows Hnf Hex Hnonempty.
  destruct (select_ticket_answer_newest question (db w) rows Hrows Hex)
    as (t & Hnew & Hsel).
  destruct (query_ticket_answer_selects question w _ Hnf Hsel) as (w' & Hq).
  pose proof Hnew as (Hin & [Hissue [r Hr]] & Hmax).
  exists t, r, w'. split; [exact Hnew|]. split; [exact Hr|].
  unfold query_database_tool, try_except, bind. rewrite Hq, Hr.
  assert (Ht : truthy r = true).
  { destruct r; [|done]. exfalso. by apply (Hnonempty t). }
  by rewrite Ht.
Qed.

(** The question is put in capitals; the server, left at its default
    collation, takes the stored issue for equal, and the tool returns the
    response of the later ticket. *)
Lemma answered_ticket_is_reused_witness :
  exists t r w',
    newest_answered answered_twice_db "WHO IS ALICE"
      (default [] (tickets answered_twice_db)) t
    /\ t_response t = Some r
    /\ query_database_tool "WHO IS ALICE" (world_of answered_twice_db [] [])
       = (Return r, w').
Proof.
  apply (answered_ticket_is_reused "WHO IS ALICE"
           (world_of answered_twice_db [] [])).
  - reflexivity.
  - intros i _. simpl. by rewrite lookup_nil.
  - eexists. split; [left; reflexivity|]. split; [reflexivity|by eexists].
  - intros t (Hin & _ & _). simpl in Hin.
    destruct Hin as [<-|[<-|[]]]; discriminate.
Defined.

Example later_answer_is_returned :
  fst (query_database_tool "who is alice" (world_of answered_twice_db [] []))
  = Return "Alice leads the support team."
  /\ fst (query_database_tool "WHO IS ALICE" (world_of answered_twice_db [] []))
     = Return "Alice leads the support team.".
Proof. split; reflexivity. Qed.

End LookupClaims.
(* --------------------------------------------------------------------- *)
(** ** Claims on the orchestration loop *)
(* --------------------------------------------------------------------- *)

Module GraphClaims.
Import PyStr Runtime DatabaseUtils AgentTools AgentGraph Api MonadFacts Fixtures.
Import Notions.
Local Open Scope py_scope.

(** *** The executor *)

(** Whatever the model does, the executor hands back a dictionary. *)
Lemma execute_up_to_dict iterations p w r w' :
  execute_up_to iterations p w = (Return r, w') ->
  exists output, r = executor_dict output.
Proof.
  revert p w. induction iterations as [|n IH]; intros p w; cbn [execute_up_to].
  - intros [= <- _]. by eexists.
  - destruct p as [output|c next].
    + intros [= <- _]. by eexists.
    + unfold bind. destruct (invoke_tool c w) as [[observation|e] w1]; [|done].
      apply IH.
Qed.


Section Workflow.
Variable llm : string -> list BaseMessage -> steps -> plan.
Variable tool_node : AgentState -> M AgentState.

Lemma getitem_last_snoc {A} (l : list A) (x : A) w :
  getitem_last (l ++ [x]) w = (Return x, w).
Proof. unfold getitem_last. by rewrite last_snoc. Qed.

Lemma last_message_of_state_after history r :
  last (chat_history (state_after history r)) = Some (reply r).
Proof. destruct r; cbn; apply last_snoc. Qed.

(** [run_agent] in terms of the call of the executor. *)
Lemma run_agent_executes state m0 w :
  last (chat_history state) = Some m0 ->
  run_agent llm state w
  = bind (agent_executor_invoke llm (content m0)
            (removelast (chat_history state)) (agent_outcome state))
         (fun r => ret (state_after (chat_history state) r)) w.
Proof.
  intros Hlast. unfold run_agent, bind at 1, getitem_last.
  rewrite Hlast. unfold ret at 1. unfold bind.
  destruct (agent_executor_invoke _ _ _ _ w) as [[r|e] w1]; [|done].
  by destruct r.
Qed.

Lemma should_continue_state_after history r w :
  should_continue (state_after history r) w
  = (Return (if without_tool_call r then end_ else continue_tool_call), w).
Proof.
  unfold should_continue, bind, getitem_last.
  rewrite last_message_of_state_after. unfold ret at 1.
  destruct r as [m| |]; cbn; [|done|done].
  by destruct (tool_calls m) as [[|c cs]|].
Qed.

(** A run of the workflow is one call of the executor: the reply the
    agent step appends carries no tool call, so the conditional edge leads
    to [END] and the tool node is never run. *)
Lemma run_is_one_executor_call fuel state m0 w :
  last (chat_history state) = Some m0 ->
  run_from llm tool_node (S fuel) agent state w
  = bind (execute_plan (llm (content m0) (removelast (chat_history state))
                            (agent_outcome state)))
         (fun r => ret (Some (state_after (chat_history state) r))) w.
Proof.
  intros Hlast. cbn [run_from run_node]. unfold bind at 1. unfold bind at 1.
  rewrite (run_agent_executes _ _ _ Hlast).
  unfold bind at 1 3, agent_executor_invoke.
  destruct (execute_plan _ w) as [[r|e] w1] eqn:Hex; [|done].
  apply execute_up_to_dict in Hex as [output ->].
  unfold ret at 1. unfold bind at 1. rewrite should_continue_state_after.
  cbn [without_tool_call executor_dict ret fst snd]. by destruct fuel.
Qed.

Lemma initial_state_last user_input history :
  last (chat_history (initial_state user_input history))
  = Some (human user_input)
  /\ removelast (chat_history (initial_state user_input history)) = history
  /\ agent_outcome (initial_state user_input history) = []
  /\ chat_history (initial_state user_input history)
     = history ++ [human user_input].
Proof.
  unfold initial_state. cbn. destruct history as [|m h].
  - done.
  - by rewrite last_snoc, removelast_last.
Qed.

(** A turn is two calls of the executor, each from the same input; the
    message returned is the reply to the second. *)
Lemma turn_is_two_executor_calls fuel user_input history w :
  process_graph_with_agent llm tool_node (S fuel) user_input history w
  = bind (execute_plan (llm user_input history []))
         (fun _ =>
            bind (execute_plan (llm user_input history []))
                 (fun r => ret (Some (reply r)))) w.
Proof.
  destruct (initial_state_last user_input history) as (Hl & Hr & Ho & Hh).
  assert (Hrun : forall w0,
            run_from llm tool_node (S fuel) agent
              (initial_state user_input history) w0
            = bind (execute_plan (llm user_input history []))
                (fun r => ret (Some (state_after
                                       (chat_history
                                          (initial_state user_input history))
                                       r))) w0).
  { intros w0. rewrite (run_is_one_executor_call _ _ _ _ Hl).
    by rewrite Hr, Ho. }
  unfold process_graph_with_agent, app_stream, app_invoke.
  cbv zeta. unfold bind. rewrite Hrun. unfold bind, ret.
  destruct (execute_plan _ w) as [[r1|e] w1]; [|done].
  rewrite Hrun. unfold bind, ret.
  destruct (execute_plan _ w1) as [[r2|e] w2]; [|done].
  unfold getitem_last. by rewrite last_message_of_state_after.
Qed.


End Workflow.

(** A turn returns the reply of the agent, a message without tool calls,
    or raises; it is never still going on. *)
Lemma turn_returns_or_raises
    (llm : string -> list BaseMessage -> steps -> plan)
    (tool_node : AgentState -> M AgentState) fuel user_input history w :
  (exists output w',
     process_graph_with_agent llm tool_node (S fuel) user_input history w
     = (Return (Some (ai output)), w'))
  \/ (exists e w',
        process_graph_with_agent llm tool_node (S fuel) user_input history w
        = (Raise e, w')).
Proof.
  rewrite turn_is_two_executor_calls. unfold bind.
  destruct (execute_plan _ w) as [[r1|e] w1]; [|right; by eexists _, _].
  destruct (execute_plan _ w1) as [[r2|e] w2] eqn:H2; [|right; by eexists _, _].
  apply execute_up_to_dict in H2 as [output ->]. left. by exists output, w2.
Qed.




(** *** One turn *)



(** One request for a ticket in one turn leaves two tickets in the store. *)
Example one_request_two_tickets :
  option_map (map (fun t => (t_ticket_id t, t_issue t)))
             (tickets (db (snd one_turn)))
  = Some [("TKT-3F2A9C1B", "my printer is on fire");
          ("TKT-A81B22C3", "my printer is on fire")]
  /\ stdin (snd one_turn) = [].
Proof. split; reflexivity. Qed.

(** C10. [process_graph_with_agent] returns one message. For a request
    that is neither a greeting nor a goodbye the handler of [/chat] runs
    the agent turn, and its reply is always the HTTP 500 error of the
    [except] clause, never the response model: when the turn returns its
    message, the handler subscripts it, which raises, and the detail is
    the text of that type error; when the turn itself raises, the detail
    is the text of its exception. The turn is never left unfinished. *)
Theorem chat_endpoint_fails_on_agent_reply
    (llm : string -> list BaseMessage -> steps -> plan)
    (tool_node : AgentState -> M AgentState)
    (fuel : nat) (request : ChatRequest) (w : world) :
  is_conversational (user_input request) = false ->
  is_goodbye (user_input request) = false ->
  exists detail w',
    chat_with_agent llm tool_node (S fuel) request w
    = (Return (Some (Http500 detail)), w')
    /\ match process_graph_with_agent llm tool_node (S fuel)
               (user_input request)
               (convert_to_langchain_messages (conversation_history request)
                ++ [human (user_input request)]) w with
       | (Return (Some m), w1) =>
           detail = "'AIMessage' object is not subscriptable" /\ w' = w1
       | (Return None, _) => False
       | (Raise e, w1) => detail = str_of_exn e /\ w' = w1
       end.
Proof.
  intros Hconv Hbye. unfold chat_with_agent, try_except.
  rewrite Hconv, Hbye. cbn [orb]. unfold bind at 1.
  destruct (turn_returns_or_raises llm tool_node fuel (user_input request)
              (convert_to_langchain_messages (conversation_history request)
               ++ [human (user_input request)]) w)
    as [(output & w1 & ->)|(e & w1 & ->)].
  - unfold bind, subscript_last, raise, ret. by eexists _, _.
  - unfold ret. by eexists _, _.
Qed.

(** The model asks for a ticket and the user declines, twice: the turn
    returns its message and the reply of the endpoint is the error. *)
Lemma chat_endpoint_fails_on_agent_reply_witness :
  exists detail w',
    chat_with_agent ticket_model prebuilt_tool_node 3 printer_request
      (world_of alice_db [] ["no"; "no"])
    = (Return (Some (Http500 detail)), w')
    /\ match process_graph_with_agent ticket_model prebuilt_tool_node 3
               "my printer is on fire" [human "my printer is on fire"]
               (world_of alice_db [] ["no"; "no"]) with
       | (Return (Some m), w1) =>
           detail = "'AIMessage' object is not subscriptable" /\ w' = w1
       | (Return None, _) => False
       | (Raise e, w1) => detail = str_of_exn e /\ w' = w1
       end.
Proof.
  apply (chat_endpoint_fails_on_agent_reply ticket_model prebuilt_tool_node 2
           printer_request (world_of alice_db [] ["no"; "no"])).
  - reflexivity.
  - reflexivity.
Defined.

(** The same request with and without a line on the console: the error of
    the handler, and the error of the tool that found no line to read. *)
Example declined_ticket_turn_is_http_500 :
  fst (chat_with_agent ticket_model prebuilt_tool_node 3 printer_request
         (world_of alice_db [] ["no"; "no"]))
  = Return (Some (Http500 "'AIMessage' object is not subscriptable"))
  /\ fst (chat_with_agent ticket_model prebuilt_tool_node 3 printer_request
            (world_of alice_db [] []))
     = Return (Some (Http500 "EOF when reading a line")).
Proof. split; reflexivity. Qed.

End GraphClaims.

(* --------------------------------------------------------------------- *)
(** ** Keywords and names taken from a question *)
(* --------------------------------------------------------------------- *)

Module TextFacts.
Import PyStr PyStrFacts DatabaseUtils.

Ltac by_cases_on_char c :=
  destruct c as [[] [] [] [] [] [] [] []]; vm_compute; try reflexivity;
  try discriminate.

Lemma lower_char_not_upper c : is_upper (lower_char c) = false.
Proof. by_cases_on_char c. Qed.

Lemma upper_char_not_lower c : is_lower (upper_char c) = false.
Proof. by_cases_on_char c. Qed.

Lemma alpha_not_special c :
  is_alpha c = true ->
  (code c =? 37)%N = false /\ (code c =? 95)%N = false
  /\ (code c =? 92)%N = false.
Proof. by_cases_on_char c; intros; repeat split; discriminate. Qed.

Lemma lower_no_upper s : forallb_str (fun c => negb (is_upper c)) (lower s) = true.
Proof.
  induction s as [|c s IH]; [done|].
  unfold lower in *. cbn [smap forallb_str].
  by rewrite lower_char_not_upper, IH.
Qed.

Lemma upper_no_lower s : forallb_str (fun c => negb (is_lower c)) (upper s) = true.
Proof.
  induction s as [|c s IH]; [done|].
  unfold upper in *. cbn [smap forallb_str].
  by rewrite upper_char_not_lower, IH.
Qed.

Lemma forallb_str_append p a b :
  forallb_str p (a +:+ b) = forallb_str p a && forallb_str p b.
Proof.
  induction a as [|c a IH]; [done|].
  rewrite append_cons. cbn [forallb_str]. by rewrite IH, andb_assoc.
Qed.

(** The runs cut out of a text hold characters of that text only. *)
Lemma runs_aux_forall p keep cur s :
  forallb_str p cur = true -> forallb_str p s = true ->
  Forall (fun w => forallb_str p w = true) (runs_aux keep cur s).
Proof.
  revert cur. induction s as [|c s IH]; intros cur Hcur Hs; cbn [runs_aux].
  - destruct (truthy cur); by repeat constructor.
  - cbn [forallb_str] in Hs. apply andb_true_iff in Hs as [Hc Hs].
    destruct (keep c).
    + apply IH; [|done]. rewrite forallb_str_append, Hcur. cbn. by rewrite Hc.
    + apply Forall_app. split; [destruct (truthy cur); by repeat constructor|].
      by apply IH.
Qed.

Lemma runs_forall p keep s :
  forallb_str p s = true ->
  Forall (fun w => forallb_str p w = true) (runs keep s).
Proof. intros. by apply runs_aux_forall. Qed.

Lemma forallb_str_impl (p q : ascii -> bool) s :
  (forall c, p c = true -> q c = true) ->
  forallb_str p s = true -> forallb_str q s = true.
Proof.
  intros Hpq. induction s as [|c s IH]; [done|]. cbn [forallb_str].
  rewrite !andb_true_iff. intros [Hc Hs]. auto.
Qed.

Lemma forallb_str_and (p q : ascii -> bool) s :
  forallb_str p s = true -> forallb_str q s = true ->
  forallb_str (fun c => p c && q c) s = true.
Proof.
  induction s as [|c s IH]; [done|]. cbn [forallb_str].
  rewrite !andb_true_iff. intros [Hp Hs] [Hq Hs']. auto.
Qed.




(** Whatever the seed, the list made of a set holds the elements of the
    set, each once. *)
Lemma arrange_Permutation fuel seed (l : list string) :
  length l = fuel -> arrange fuel seed l ≡ₚ l.
Proof.
  revert seed l. induction fuel as [|fuel IH]; intros seed l Hlen.
  - by destruct l.
  - cbn [arrange].
    assert (Hlt : seed mod length l < length l)
      by (apply Nat.mod_upper_bound; lia).
    destruct (lookup_lt_is_Some_2 l _ Hlt) as [x Hx]. rewrite Hx.
    etransitivity; [|symmetry; exact (delete_Permutation l _ x Hx)].
    apply perm_skip.
    apply IH. rewrite length_delete by eauto. lia.
Qed.

Lemma list_of_set_Permutation seed xs : list_of_set seed xs ≡ₚ remove_dups xs.
Proof. by apply arrange_Permutation. Qed.

Lemma keywords_lower (seed : nat) (question k : string) :
  In k (extract_keywords seed question) ->
  3 <= String.length k /\ forallb_str is_lower k = true
  /\ mem k stop_words = false.
Proof.
  unfold extract_keywords.
  intros Hk.
  rewrite <- list_elem_of_In, list_of_set_Permutation, elem_of_remove_dups,
    list_elem_of_In in Hk.
  apply filter_In in Hk as [Hk Hstop]. apply filter_In in Hk as [Hrun Hword].
  apply andb_true_iff in Hword as [Halpha Hlen].
  apply negb_true_iff in Hstop. apply Nat.leb_le in Hlen.
  repeat split; try done.
  assert (Hcase : forallb_str (fun c => negb (is_upper c)) k = true).
  { pose proof (runs_forall (fun c => negb (is_upper c)) is_word
                  (lower question) (lower_no_upper question)) as Hall.
    rewrite Forall_forall in Hall. apply Hall. by apply list_elem_of_In. }
  eapply forallb_str_impl; [|exact (forallb_str_and _ _ _ Halpha Hcase)].
  intros c. unfold is_alpha. by destruct (is_upper c), (is_lower c).
Qed.

(** X4. The keywords [extract_keywords] hands to the FAQ statement are
    pairwise distinct, and each of them is a word of three or more
    lower-case letters that is not a stop word, in whatever order the set
    of keywords is listed. *)
Theorem keywords_are_distinct_plain_words (seed : nat) (question : string) :
  NoDup (extract_keywords seed question)
  /\ forall k, In k (extract_keywords seed question) ->
       3 <= String.length k
       /\ forallb_str is_lower k = true
       /\ mem k stop_words = false.
Proof.
  split; [|apply keywords_lower].
  unfold extract_keywords. rewrite list_of_set_Permutation.
  apply NoDup_remove_dups.
Qed.

Lemma keywords_are_distinct_plain_words_witness :
  3 <= String.length "opening"
  /\ forallb_str is_lower "opening" = true
  /\ mem "opening" stop_words = false.
Proof.
  apply (proj2 (keywords_are_distinct_plain_words 1
                  "What are your opening hours?") "opening").
  vm_compute. tauto.
Defined.




(** *** Patterns built from keywords *)

Lemma sql_like_percent p text :
  sql_like (String "%" p) text
  = sql_like p text
    || match text with
       | EmptyString => false
       | String _ text' => sql_like (String "%" p) text'
       end.
Proof. by destruct text. Qed.

Lemma sql_like_any text : sql_like "%" text = true.
Proof.
  induction text as [|c text IH]; [done|].
  rewrite sql_like_percent, IH. apply orb_true_r.
Qed.

Lemma sql_like_letters k rest text :
  forallb_str is_alpha k = true ->
  sql_like (k +:+ rest) text
  = match after_prefix k text with
    | Some text' => sql_like rest text'
    | None => false
    end.
Proof.
  revert text. induction k as [|c k IH]; intros text Hk; [done|].
  cbn [forallb_str] in Hk. apply andb_true_iff in Hk as [Hc Hk].
  destruct (alpha_not_special c Hc) as (H1 & H2 & H3).
  rewrite append_cons. cbn [sql_like after_prefix]. rewrite H1, H2, H3.
  destruct text as [|x text]; [done|].
  destruct (Ascii.eqb c x); cbn [andb]; [by apply IH|done].
Qed.

Lemma after_prefix_startswith k text :
  startswith k text
  = match after_prefix k text with Some _ => true | None => false end.
Proof.
  revert text. induction k as [|c k IH]; intros text; [done|].
  destruct text as [|x text]; cbn [startswith after_prefix]; [done|].
  destruct (Ascii.eqb c x); cbn [andb]; [apply IH|done].
Qed.

Lemma sql_like_prefix k text :
  forallb_str is_alpha k = true ->
  sql_like (k +:+ "%") text = startswith k text.
Proof.
  intros Hk. rewrite sql_like_letters, after_prefix_startswith by done.
  destruct (after_prefix k text) as [text'|]; [apply sql_like_any|done].
Qed.

Lemma sql_like_contains k text :
  forallb_str is_alpha k = true ->
  sql_like (percent k) text = py_in k text.
Proof.
  intros Hk. unfold percent. rewrite append_cons.
  change (EmptyString +:+ k +:+ "%") with (k +:+ "%").
  induction text as [|c text IH].
  - rewrite sql_like_percent, sql_like_prefix by done. reflexivity.
  - rewrite sql_like_percent, sql_like_prefix, IH by done. reflexivity.
Qed.

(** X6. For a keyword taken from the question, the condition
    [LOWER(column) LIKE '%keyword%'] of the FAQ statement holds exactly
    when the keyword occurs in the text: a keyword holds letters only, so
    none of its characters acts as a wildcard. *)
Theorem keyword_condition_is_containment
    (seed : nat) (question k text : string) :
  In k (extract_keywords seed question) ->
  sql_like (percent k) text = py_in k text.
Proof.
  intros Hk. apply sql_like_contains.
  destruct (keywords_lower seed question k Hk) as (_ & Hlow & _).
  eapply forallb_str_impl; [|exact Hlow].
  intros c Hc. unfold is_alpha. by rewrite Hc, orb_true_r.
Qed.

Lemma keyword_condition_is_containment_witness :
  sql_like (percent "opening") "what are your opening hours?"
  = py_in "opening" "what are your opening hours?".
Proof.
  apply (keyword_condition_is_containment 1 "What are your opening hours?").
  vm_compute. tauto.
Defined.

End TextFacts.

(* --------------------------------------------------------------------- *)
(** ** The life of a ticket *)
(* --------------------------------------------------------------------- *)

Module TicketFacts.
Import PyStr Runtime DatabaseUtils AgentTools LookupOrder MonadFacts Fixtures.
Import RagSearch Notions.
Local Open Scope py_scope.

Lemma set_tickets_same d rows : tickets d = Some rows -> set_tickets rows d = d.
Proof. destruct d. cbn. by intros ->. Qed.

Lemma existsb_false_Forall {A} (p : A -> bool) l :
  existsb p l = false -> Forall (fun x => p x = false) l.
Proof.
  induction l as [|x l IH]; cbn; [constructor|].
  intros H. apply orb_false_iff in H as [Hx Hl]. constructor; auto.
Qed.

Lemma find_none_Forall {A} (p : A -> bool) l :
  Forall (fun x => p x = false) l -> List.find p l = None.
Proof. induction 1 as [|x l Hx _ IH]; cbn; [done|]. by rewrite Hx. Qed.

Lemma find_app_last {A} (p : A -> bool) l x :
  Forall (fun y => p y = false) l -> p x = true ->
  List.find p (l ++ [x]) = Some x.
Proof.
  induction 1 as [|y l Hy _ IH]; cbn; intros Hx; [by rewrite Hx|].
  rewrite Hy. auto.
Qed.

Lemma sql_eq_refl d s : sql_eq d s s = true.
Proof. unfold sql_eq. by rewrite String.eqb_refl. Qed.

Lemma sql_eq_set_tickets rows d a b : sql_eq (set_tickets rows d) a b = sql_eq d a b.
Proof. reflexivity. Qed.

Lemma sql_eq_false_neq d a b : sql_eq d a b = false -> a <> b.
Proof.
  unfold sql_eq. intros [H _]%orb_false_iff. by apply String.eqb_neq.
Qed.

Lemma map_with_response_other d ticket_id response status rows :
  Forall (fun t => sql_eq d (t_ticket_id t) ticket_id = false) rows ->
  map (with_response d ticket_id response status) rows = rows.
Proof.
  induction 1 as [|t rows Ht _ IH]; cbn; [done|].
  unfold with_response at 1. by rewrite Ht, IH.
Qed.

Lemma with_response_id d ticket_id response status t :
  t_ticket_id (with_response d ticket_id response status t) = t_ticket_id t.
Proof. unfold with_response. by destruct (sql_eq d _ _). Qed.

Lemma find_with_response d d' ticket_id response status rows t :
  (forall a b, sql_eq d' a b = sql_eq d a b) ->
  List.find (fun t => sql_eq d (t_ticket_id t) ticket_id) rows = Some t ->
  List.find (fun t => sql_eq d' (t_ticket_id t) ticket_id)
            (map (with_response d ticket_id response status) rows)
  = Some (with_response d ticket_id response status t).
Proof.
  intros Hsame. induction rows as [|x rows IH]; [done|].
  cbn [List.find map]. rewrite Hsame, with_response_id.
  destruct (sql_eq d (t_ticket_id x) ticket_id); [by intros [= ->]|exact IH].
Qed.

(** *** What a creation and an update leave in the store *)

Lemma insert_ticket_inv ticket_id user_name issue status d d' :
  insert_ticket ticket_id user_name issue status d = Return d' ->
  exists rows row,
    tickets d = Some rows
    /\ Forall (fun t => sql_eq d (t_ticket_id t) ticket_id = false) rows
    /\ d' = set_tickets (rows ++ [row]) d
    /\ t_ticket_id row = ticket_id /\ t_user_name row = user_name
    /\ t_issue row = issue /\ t_response row = None /\ t_status row = status
    /\ t_created_at row = current_timestamp d.
Proof.
  unfold insert_ticket, no_such_table.
  destruct (tickets d) as [rows|]; [|done].
  destruct (existsb _ rows) eqn:Hdup; [done|].
  destruct (_ || _); [done|]. intros [= <-].
  eexists rows, _. repeat split; try reflexivity.
  by apply existsb_false_Forall.
Qed.

Lemma create_support_ticket_inv user_name issue w r w' :
  create_support_ticket user_name issue w = (Return r, w') ->
  match r with
  | Some ticket_id =>
      ticket_id = "TKT-" +:+ upper (take 8 (uuid4_hex w (uuid_calls w)))
      /\ insert_ticket ticket_id user_name issue "open" (db w) = Return (db w')
  | None => db w' = db w
  end.
Proof.
  unfold create_support_ticket, try_except, bind, get_db_connection,
    cursor_execute, conn_commit, uuid4, next_fault, get_world, lift, bind,
    raise, ret.
  destruct (db_faults w) as [|[|] [|[|] [|[|] fs]]] eqn:Hf;
    cbn -[insert_ticket]; rewrite ?Hf; cbn -[insert_ticket];
    try (intros [= <- <-]; reflexivity);
    destruct (insert_ticket _ user_name issue "open" (db w)) as [d'|e] eqn:Hins;
    cbn -[insert_ticket]; rewrite ?Hf; cbn -[insert_ticket];
    try destruct e; intros [= <- <-]; cbn; auto.
Qed.

Lemma update_ticket_inv ticket_id response status d d' :
  update_ticket ticket_id response status d = Return d' ->
  exists rows,
    tickets d = Some rows
    /\ d' = set_tickets (map (with_response d ticket_id response status) rows) d.
Proof.
  unfold update_ticket, no_such_table.
  destruct (tickets d) as [rows|]; [|done].
  destruct (_ || _); [done|]. intros [= <-]. by exists rows.
Qed.

Lemma update_ticket_response_inv ticket_id response status w w' :
  update_ticket_response ticket_id response status w = (Return true, w') ->
  exists rows,
    tickets (db w) = Some rows
    /\ db w' = set_tickets
                 (map (with_response (db w) ticket_id response status) rows)
                 (db w).
Proof.
  unfold update_ticket_response, try_except, bind, get_db_connection,
    cursor_execute, conn_commit, next_fault, get_world, lift, bind, raise, ret.
  pose proof (update_ticket_inv ticket_id response status (db w)) as Hupd.
  destruct (db_faults w) as [|[|] [|[|] [|[|] fs]]] eqn:Hf;
    cbn -[update_ticket]; rewrite ?Hf; cbn -[update_ticket];
    try discriminate;
    destruct (update_ticket ticket_id response status (db w)) as [d'|e] eqn:Hu;
    cbn -[update_ticket]; rewrite ?Hf; cbn -[update_ticket];
    try (destruct e; discriminate); try discriminate;
    intros [= <-]; cbn; by apply Hupd.
Qed.

(** With no driver failure during the connection and the statement, the
    capability reports what the statement selects. *)
Lemma get_ticket_by_id_selects ticket_id w r :
  no_fault_within 2 w ->
  select_ticket_by_id ticket_id (db w) = Return r ->
  exists w', get_ticket_by_id ticket_id w = (Return r, w').
Proof.
  intros Hnf Hsel.
  assert (H0 := Hnf 0). assert (H1 := Hnf 1).
  unfold get_ticket_by_id, try_except, bind, get_db_connection,
    cursor_execute, next_fault, get_world, lift, bind, ret.
  destruct (db_faults w) as [|b0 [|b1 fs]] eqn:Hf; cbn in H0, H1.
  - cbn -[select_ticket_by_id]. rewrite Hf. cbn -[select_ticket_by_id].
    rewrite Hsel. by eexists.
  - destruct b0; [exfalso; apply H0; [lia|done]|].
    cbn -[select_ticket_by_id]. rewrite Hsel. by eexists.
  - destruct b0; [exfalso; apply H0; [lia|done]|].
    destruct b1; [exfalso; apply H1; [lia|done]|].
    cbn -[select_ticket_by_id]. rewrite Hsel. by eexists.
Qed.

(** X7. A call of [create_support_ticket] never raises. When it returns
    [None] the store is as it was. When it returns an id, the id is
    ["TKT-"] followed by the first eight characters of the UUID in upper
    case, no earlier row carries it, and the table has gained, at its end,
    exactly one row: open, without a response, with the given user name
    and issue; the other tables are untouched. *)
Theorem create_adds_one_open_ticket (user_name issue : string) (w : world) :
  match create_support_ticket user_name issue w with
  | (Return (Some ticket_id), w') =>
      ticket_id = "TKT-" +:+ upper (take 8 (uuid4_hex w (uuid_calls w)))
      /\ exists rows row,
           tickets (db w) = Some rows
           /\ Forall (fun t => t_ticket_id t <> ticket_id) rows
           /\ tickets (db w') = Some (rows ++ [row])
           /\ t_ticket_id row = ticket_id /\ t_user_name row = user_name
           /\ t_issue row = issue /\ t_response row = None
           /\ t_status row = "open"
           /\ teams (db w') = teams (db w) /\ faq (db w') = faq (db w)
  | (Return None, w') => db w' = db w
  | (Raise _, _) => False
  end.
Proof.
  destruct (create_support_ticket_returns user_name issue w) as (r & w' & Hrun).
  rewrite Hrun. apply create_support_ticket_inv in Hrun.
  destruct r as [ticket_id|]; [|done].
  destruct Hrun as [Hid Hins]. split; [done|].
  apply insert_ticket_inv in Hins
    as (rows & row & Hrows & Hfresh & Hdb & ? & ? & ? & ? & ? & ?).
  exists rows, row. rewrite Hdb. repeat split; try done.
  eapply Forall_impl; [exact Hfresh|]. intros t Ht.
  exact (sql_eq_false_neq _ _ _ Ht).
Qed.

(** X8. A ticket that was just created is found by the status capability
    under the id that was handed out, as an open ticket on the given issue
    whose response is pending. *)
Theorem created_ticket_is_reported_pending
    (user_name issue ticket_id : string) (w w1 : world) :
  create_support_ticket user_name issue w = (Return (Some ticket_id), w1) ->
  no_fault_within 2 w1 ->
  exists w2,
    check_ticket_status_tool ticket_id w1
    = (Return ("Ticket " +:+ ticket_id +:+ " (open)" +:+ newline
               +:+ "Issue: " +:+ issue +:+ newline
               +:+ "Response: Pending from support."), w2).
Proof.
  intros Hrun Hnf. apply create_support_ticket_inv in Hrun as [_ Hins].
  apply insert_ticket_inv in Hins
    as (rows & row & Hrows & Hfresh & Hdb & Hid & _ & Hissue & Hresp & Hstatus & _).
  assert (Hsel : select_ticket_by_id ticket_id (db w1) = Return (Some row)).
  { unfold select_ticket_by_id. rewrite Hdb. cbn [tickets set_tickets].
    f_equal. apply find_app_last; [exact Hfresh|].
    rewrite Hid. apply sql_eq_refl. }
  destruct (get_ticket_by_id_selects ticket_id w1 _ Hnf Hsel) as (w2 & Hget).
  exists w2. unfold check_ticket_status_tool, bind. rewrite Hget.
  rewrite Hresp, Hstatus, Hissue. unfold ret.
  by rewrite !PyStrFacts.append_assoc.
Qed.

Lemma created_ticket_is_reported_pending_witness :
  exists w2,
    check_ticket_status_tool "TKT-3F2A9C1B"
      (snd (create_support_ticket "bob" "printer on fire"
              (world_of alice_db [] [])))
    = (Return ("Ticket " +:+ "TKT-3F2A9C1B" +:+ " (open)" +:+ newline
               +:+ "Issue: " +:+ "printer on fire" +:+ newline
               +:+ "Response: Pending from support."), w2).
Proof.
  apply (created_ticket_is_reported_pending "bob" "printer on fire"
           "TKT-3F2A9C1B" (world_of alice_db [] [])).
  - reflexivity.
  - intros i _. simpl. by rewrite lookup_nil.
Defined.

(** X9. [update_ticket_response] does not look at the number of rows the
    statement changed: for an id that equals, for the server, the id of no
    row it returns [True] and leaves the store as it was. *)
Theorem update_of_unknown_ticket_reports_success
    (ticket_id response status : string) (w : world) (rows : list ticket) :
  tickets (db w) = Some rows ->
  Forall (fun t => sql_eq (db w) (t_ticket_id t) ticket_id = false) rows ->
  no_fault_within 3 w ->
  too_long 65535 response = false -> too_long 50 status = false ->
  exists w',
    update_ticket_response ticket_id response status w = (Return true, w')
    /\ db w' = db w.
Proof.
  intros Hrows Hnone Hnf Hr Hs.
  assert (Hupd : update_ticket ticket_id response status (db w) = Return (db w)).
  { unfold update_ticket. rewrite Hrows, Hr, Hs. cbn [orb]. f_equal.
    fold (with_response (db w) ticket_id response status).
    rewrite map_with_response_other by exact Hnone.
    by apply set_tickets_same. }
  assert (H0 := Hnf 0). assert (H1 := Hnf 1). assert (H2 := Hnf 2).
  unfold update_ticket_response, try_except, bind, get_db_connection,
    cursor_execute, conn_commit, next_fault, get_world, lift, bind, raise, ret.
  destruct (db_faults w) as [|b0 [|b1 [|b2 fs]]] eqn:Hf; cbn in H0, H1, H2;
    try (destruct b0; [exfalso; apply H0; [lia|done]|]);
    try (destruct b1; [exfalso; apply H1; [lia|done]|]);
    try (destruct b2; [exfalso; apply H2; [lia|done]|]);
    cbn -[update_ticket]; rewrite ?Hf; cbn -[update_ticket];
    rewrite Hupd; cbn -[update_ticket]; rewrite ?Hf; cbn -[update_ticket];
    by eexists.
Qed.

Lemma update_of_unknown_ticket_reports_success_witness :
  exists w',
    update_ticket_response "TKT-00000009" "Fixed." "closed"
      (world_of answered_twice_db [] []) = (Return true, w')
    /\ db w' = db (world_of answered_twice_db [] []).
Proof.
  apply (update_of_unknown_ticket_reports_success "TKT-00000009" "Fixed."
           "closed" (world_of answered_twice_db [] [])
           (default [] (tickets answered_twice_db))).
  - reflexivity.
  - repeat constructor.
  - intros i _. simpl. by rewrite lookup_nil.
  - reflexivity.
  - reflexivity.
Defined.

(** The id is typed in small letters; the server, left at its default
    collation, takes the stored id for equal and changes the row. *)
Example update_reaches_ticket_in_other_case :
  option_map (map (fun t => (t_ticket_id t, t_response t)))
    (tickets (db (snd (update_ticket_response "tkt-00000001" "Fixed." "closed"
                         (world_of answered_twice_db [] [])))))
  = Some [("TKT-00000001", Some "Fixed.");
          ("TKT-00000002", Some "Alice leads the support team.")]
  /\ fst (check_ticket_status_tool "tkt-00000002"
            (world_of answered_twice_db [] []))
     = Return ("Ticket tkt-00000002 (closed)" +:+ newline
               +:+ "Issue: who is alice" +:+ newline
               +:+ "Response: Alice leads the support team.").
Proof. split; reflexivity. Qed.

(** X10. Once support has answered a ticket with a non-empty text, the
    status capability reports the ticket under its new status, with its
    issue and with that text as the response. The ticket is the first row
    whose id equals the given one for the server. *)
Theorem answered_ticket_shows_response
    (ticket_id response status : string) (w w1 : world)
    (rows : list ticket) (t : ticket) :
  tickets (db w) = Some rows ->
  List.find (fun t => sql_eq (db w) (t_ticket_id t) ticket_id) rows = Some t ->
  update_ticket_response ticket_id response status w = (Return true, w1) ->
  truthy response = true ->
  no_fault_within 2 w1 ->
  exists w2,
    check_ticket_status_tool ticket_id w1
    = (Return ("Ticket " +:+ ticket_id +:+ " (" +:+ status +:+ ")" +:+ newline
               +:+ "Issue: " +:+ t_issue t +:+ newline
               +:+ "Response: " +:+ response), w2).
Proof.
  intros Hrows Hfind Hrun Htext Hnf.
  apply update_ticket_response_inv in Hrun as (rows' & Hrows' & Hdb).
  rewrite Hrows in Hrows'. injection Hrows' as <-.
  assert (Hsel : select_ticket_by_id ticket_id (db w1)
                 = Return (Some (with_response (db w) ticket_id response
                                   status t))).
  { unfold select_ticket_by_id. rewrite Hdb. cbn [tickets set_tickets]. f_equal.
    by apply find_with_response. }
  destruct (get_ticket_by_id_selects ticket_id w1 _ Hnf Hsel) as (w2 & Hget).
  exists w2. unfold check_ticket_status_tool, bind. rewrite Hget.
  apply find_some in Hfind as [_ Hid]. unfold with_response. rewrite Hid.
  cbn [t_response t_status t_issue]. rewrite Htext. unfold ret.
  by rewrite !PyStrFacts.append_assoc.
Qed.

Lemma answered_ticket_shows_response_witness :
  exists w2,
    check_ticket_status_tool "TKT-3F2A9C1B"
      (snd (update_ticket_response "TKT-3F2A9C1B" "Use the extinguisher."
              "closed"
              (snd (create_support_ticket "bob" "printer on fire"
                      (world_of alice_db [] [])))))
    = (Return ("Ticket " +:+ "TKT-3F2A9C1B" +:+ " (" +:+ "closed" +:+ ")"
               +:+ newline +:+ "Issue: " +:+ "printer on fire" +:+ newline
               +:+ "Response: " +:+ "Use the extinguisher."), w2).
Proof.
  apply (answered_ticket_shows_response "TKT-3F2A9C1B" "Use the extinguisher."
           "closed"
           (snd (create_support_ticket "bob" "printer on fire"
                   (world_of alice_db [] [])))
           (snd (update_ticket_response "TKT-3F2A9C1B" "Use the extinguisher."
                   "closed"
                   (snd (create_support_ticket "bob" "printer on fire"
                           (world_of alice_db [] [])))))
           [ {| t_id := 1; t_ticket_id := "TKT-3F2A9C1B"; t_user_name := "bob";
                t_issue := "printer on fire"; t_response := None;
                t_status := "open"; t_created_at := 1700000000 |} ]
           {| t_id := 1; t_ticket_id := "TKT-3F2A9C1B"; t_user_name := "bob";
              t_issue := "printer on fire"; t_response := None;
              t_status := "open"; t_created_at := 1700000000 |}).
  - reflexivity.
  - reflexivity.
  - reflexivity.
  - reflexivity.
  - intros i _. simpl. by rewrite lookup_nil.
Defined.

(** X11. The whole circle: a ticket is created for a question, support
    answers it with a non-empty text, and the structured lookup then
    answers the same question with that text. Every ticket with a response
    that the table held before on an issue the server takes for equal to
    the question is older than the new one. *)
Theorem support_answer_serves_next_question
    (user_name issue ticket_id response status : string) (w w1 w2 : world) :
  create_support_ticket user_name issue w = (Return (Some ticket_id), w1) ->
  update_ticket_response ticket_id response status w1 = (Return true, w2) ->
  (forall rows t, tickets (db w) = Some rows -> In t rows ->
                  answered (db w) issue t ->
                  (t_created_at t < current_timestamp (db w))%N) ->
  truthy response = true ->
  no_fault_within 2 w2 ->
  exists w3, query_database_tool issue w2 = (Return response, w3).
Proof.
  intros Hcreate Hupdate Holder Htext Hnf.
  apply create_support_ticket_inv in Hcreate as [_ Hins].
  apply insert_ticket_inv in Hins
    as (rows & row & Hrows & Hfresh & Hdb1 & Hid & _ & Hissue & Hresp & _ & Hat).
  apply update_ticket_response_inv in Hupdate as (rows1 & Hrows1 & Hdb2).
  rewrite Hdb1 in Hrows1, Hdb2. cbn [tickets set_tickets] in Hrows1.
  injection Hrows1 as <-.
  rewrite map_app, map_with_response_other in Hdb2 by exact Hfresh.
  cbn [map] in Hdb2. unfold with_response in Hdb2.
  rewrite Hid, sql_eq_refl in Hdb2.
  set (row' := {| t_id := t_id row; t_ticket_id := ticket_id;
                  t_user_name := t_user_name row; t_issue := t_issue row;
                  t_response := Some response; t_status := status;
                  t_created_at := t_created_at row |}) in Hdb2.
  assert (Hrows2 : tickets (db w2) = Some (rows ++ [row'])) by by rewrite Hdb2.
  assert (Hsame : forall t, answered (db w2) issue t <-> answered (db w) issue t)
    by (intros t; by rewrite Hdb2).
  assert (Hrow' : answered (db w2) issue row').
  { apply Hsame. split; [|by eexists]. cbn [t_issue row'].
    rewrite Hissue. apply sql_eq_refl. }
  destruct (LookupClaims.select_ticket_answer_newest issue (db w2) _ Hrows2)
    as (t & (Hin & Hans & Hmax) & Hsel).
  { exists row'. split; [apply in_or_app; right; by left|done]. }
  assert (Ht : t = row').
  { apply in_app_or in Hin as [Hin|[<-|[]]]; [|done].
    apply Hsame in Hans. specialize (Holder rows t Hrows Hin Hans).
    assert (Hle : (t_created_at row' <= t_created_at t)%N).
    { apply Hmax; [apply in_or_app; right; by left|done]. }
    cbn [t_created_at row'] in Hle. rewrite Hat in Hle. lia. }
  subst t. cbn [t_response row'] in Hsel.
  destruct (LookupClaims.query_ticket_answer_selects issue w2 _ Hnf Hsel)
    as (w3 & Hq).
  exists w3. unfold query_database_tool, try_except, bind.
  by rewrite Hq, Htext.
Qed.

Lemma support_answer_serves_next_question_witness :
  exists w3,
    query_database_tool "Who is Alice"
      (snd (update_ticket_response "TKT-3F2A9C1B" "Alice is on leave." "closed"
              (snd (create_support_ticket "bob" "Who is Alice"
                      (world_of answered_twice_db [] [])))))
    = (Return "Alice is on leave.", w3).
Proof.
  apply (support_answer_serves_next_question "bob" "Who is Alice"
           "TKT-3F2A9C1B" "Alice is on leave." "closed"
           (world_of answered_twice_db [] [])
           (snd (create_support_ticket "bob" "Who is Alice"
                   (world_of answered_twice_db [] [])))).
  - reflexivity.
  - reflexivity.
  - intros rows t Hrows Hin _. injection Hrows as <-.
    destruct Hin as [<-|[<-|[]]]; reflexivity.
  - reflexivity.
  - intros i _. simpl. by rewrite lookup_nil.
Defined.

End TicketFacts.

(* --------------------------------------------------------------------- *)
(** ** The conversions and the direct replies of the endpoint *)
(* --------------------------------------------------------------------- *)

Module ApiFacts.
Import PyStr PyStrFacts Runtime AgentTools AgentGraph Api Fixtures Notions.
Local Open Scope py_scope.

Lemma convert_to_langchain_messages_app h1 h2 :
  convert_to_langchain_messages (h1 ++ h2)
  = convert_to_langchain_messages h1 ++ convert_to_langchain_messages h2.
Proof. apply flat_map_app. Qed.

Lemma convert_from_langchain_messages_app h1 h2 :
  convert_from_langchain_messages (h1 ++ h2)
  = convert_from_langchain_messages h1 ++ convert_from_langchain_messages h2.
Proof. apply flat_map_app. Qed.

Lemma convert_there_and_back (history : list Message) :
  convert_from_langchain_messages (convert_to_langchain_messages history)
  = List.filter known_type history.
Proof.
  induction history as [|msg history IH]; [done|].
  change (convert_to_langchain_messages (msg :: history))
    with ((if String.eqb (m_type msg) "human" then [human (m_content msg)]
           else if String.eqb (m_type msg) "ai" then [ai (m_content msg)]
           else []) ++ convert_to_langchain_messages history).
  rewrite convert_from_langchain_messages_app, IH.
  cbn [List.filter]. unfold known_type.
  destruct msg as [text type]. cbn [m_type m_content].
  destruct (String.eqb type "human") eqn:Hh.
  - apply String.eqb_eq in Hh as ->. reflexivity.
  - destruct (String.eqb type "ai") eqn:Ha; [|reflexivity].
    apply String.eqb_eq in Ha as ->. reflexivity.
Qed.

(** X12. Converting a history to messages of the agent and back keeps the
    messages of type ["human"] and ["ai"], unchanged and in their order,
    and drops every message of another type. *)
Theorem conversion_round_trip_keeps_known_types (history : list Message) :
  convert_from_langchain_messages (convert_to_langchain_messages history)
  = List.filter (fun msg => String.eqb (m_type msg) "human"
                            || String.eqb (m_type msg) "ai") history.
Proof. apply convert_there_and_back. Qed.

Section Endpoint.
Variable llm : string -> list BaseMessage -> steps -> plan.
Variable tool_node : AgentState -> M AgentState.

Lemma direct_reply fuel request w :
  is_conversational (user_input request) || is_goodbye (user_input request)
  = true ->
  chat_with_agent llm tool_node fuel request w
  = (Return (Some (Http200
       {| agent_response := handle_conversational_query (user_input request);
          updated_conversation_history :=
            List.filter known_type (conversation_history request)
            ++ [ {| m_content := user_input request; m_type := "human" |};
                 {| m_content := handle_conversational_query (user_input request);
                    m_type := "ai" |} ] |})), w).
Proof.
  intros Hconv. unfold chat_with_agent, try_except. rewrite Hconv. unfold ret.
  by rewrite convert_from_langchain_messages_app, convert_there_and_back.
Qed.

(** X13. A greeting or a goodbye is answered by the endpoint itself: the
    reply is the response model with the canned text, the history handed
    back is the incoming one (its messages of a known type) followed by
    the user's text and the canned text, and neither the agent nor the
    store nor the console is touched, whatever the model would do. *)
Theorem conversational_request_bypasses_agent
    (fuel : nat) (request : ChatRequest) (w : world) :
  is_conversational (user_input request) || is_goodbye (user_input request)
  = true ->
  chat_with_agent llm tool_node fuel request w
  = (Return (Some (Http200
       {| agent_response := handle_conversational_query (user_input request);
          updated_conversation_history :=
            List.filter (fun msg => String.eqb (m_type msg) "human"
                                    || String.eqb (m_type msg) "ai")
                        (conversation_history request)
            ++ [ {| m_content := user_input request; m_type := "human" |};
                 {| m_content := handle_conversational_query (user_input request);
                    m_type := "ai" |} ] |})), w).
Proof. apply direct_reply. Qed.

End Endpoint.

Lemma conversational_request_bypasses_agent_witness :
  chat_with_agent ticket_model prebuilt_tool_node 0
    {| user_input := "Good evening";
       conversation_history := [ {| m_content := "be brief"; m_type := "system" |} ] |}
    (world_of alice_db [] [])
  = (Return (Some (Http200
       {| agent_response := "I'm here to help! How can I assist you today?";
          updated_conversation_history :=
            [ {| m_content := "Good evening"; m_type := "human" |};
              {| m_content := "I'm here to help! How can I assist you today?";
                 m_type := "ai" |} ] |})), world_of alice_db [] []).
Proof.
  apply (conversational_request_bypasses_agent ticket_model prebuilt_tool_node
           0 {| user_input := "Good evening";
                conversation_history :=
                  [ {| m_content := "be brief"; m_type := "system" |} ] |}
           (world_of alice_db [] [])).
  reflexivity.
Defined.

(** *** Greeting words inside other words *)

Lemma py_in_strip (p t : string) :
  truthy p = true -> first_is_space p = false ->
  first_is_space (last_char p) = false ->
  py_in p t = true -> py_in p (strip t) = true.
Proof.
  intros Hne Hfirst Hlast Hin.
  apply py_in_append in Hin as (a & b & ->).
  apply py_in_append. unfold strip.
  assert (Hpb : first_is_space (p +:+ b) = false /\ truthy (p +:+ b) = true).
  { destruct p; [done|]. by rewrite append_cons. }
  rewrite lstrip_append by apply Hpb.
  assert (Hr : rstrip (p +:+ b) = p +:+ rstrip b)
    by (by apply rstrip_keeps_phrase).
  rewrite rstrip_append.
  - rewrite Hr. by eexists _, _.
  - rewrite Hr. destruct p; [done|]. by rewrite append_cons.
Qed.

Lemma any_in_strip (ps : list string) (t : string) :
  forallb plain_phrase ps = true -> any_in ps t = true ->
  any_in ps (strip t) = true.
Proof.
  unfold any_in. rewrite forallb_forall, !existsb_exists.
  intros Hplain (p & Hp & Hin). exists p. split; [done|].
  specialize (Hplain p Hp). unfold plain_phrase in Hplain.
  rewrite !andb_true_iff, !negb_true_iff in Hplain.
  destruct Hplain as [[[Hne _] Hfirst] Hlast]. by apply py_in_strip.
Qed.

Lemma any_in_incl (ps qs : list string) (t : string) :
  incl ps qs -> any_in ps t = true -> any_in qs t = true.
Proof.
  unfold any_in. rewrite !existsb_exists.
  intros Hincl (p & Hp & Hin). exists p. auto.
Qed.

(** X14. The greeting words are looked for as substrings. A text that
    holds ["hello"], ["hi"] or ["hey"] anywhere, in any case and also
    inside another word, is taken for a greeting: the endpoint answers it
    with the welcome text and the agent is not asked. *)
Theorem greeting_inside_a_word_is_a_greeting
    (llm : string -> list BaseMessage -> steps -> plan)
    (tool_node : AgentState -> M AgentState)
    (fuel : nat) (request : ChatRequest) (w : world) :
  any_in ["hello"; "hi"; "hey"] (lower (user_input request)) = true ->
  exists history,
    chat_with_agent llm tool_node fuel request w
    = (Return (Some (Http200
         {| agent_response :=
              "Hello! I'm your autonomous customer support agent. How can I help you today?";
            updated_conversation_history := history |})), w).
Proof.
  intros Hin. apply any_in_strip in Hin; [|reflexivity].
  assert (Hconv : is_conversational (user_input request) = true).
  { unfold is_conversational. eapply any_in_incl; [|exact Hin].
    intros p. cbn. tauto. }
  assert (Hhello : handle_conversational_query (user_input request)
                   = "Hello! I'm your autonomous customer support agent. How can I help you today?").
  { unfold handle_conversational_query.
    assert (H : any_in ["hello"; "hi"; "hey"; "howdy"]
                       (strip (lower (user_input request))) = true).
    { eapply any_in_incl; [|exact Hin]. intros p. cbn. tauto. }
    by rewrite H. }
  eexists. rewrite direct_reply by (by rewrite Hconv). by rewrite Hhello.
Qed.

Lemma greeting_inside_a_word_is_a_greeting_witness :
  exists history,
    chat_with_agent ticket_model prebuilt_tool_node 0
      {| user_input := "What does shipping cost?"; conversation_history := [] |}
      (world_of alice_db [] [])
    = (Return (Some (Http200
         {| agent_response :=
              "Hello! I'm your autonomous customer support agent. How can I help you today?";
            updated_conversation_history := history |})),
       world_of alice_db [] []).
Proof.
  apply (greeting_inside_a_word_is_a_greeting ticket_model prebuilt_tool_node 0
           {| user_input := "What does shipping cost?";
              conversation_history := [] |} (world_of alice_db [] [])).
  reflexivity.
Defined.

End ApiFacts.

(* --------------------------------------------------------------------- *)
(** ** The table set-up, the console and the web front end *)
(* --------------------------------------------------------------------- *)

Module SetupFacts.
Import PyStr Runtime DatabaseUtils TicketTable.
Local Open Scope py_scope.

(** X15. [init_ticket_db] never raises and never touches a row: the store
    it leaves is the one it found, or, when the table was missing, the one
    it found with an empty table of tickets added. When it returns [True]
    the table exists. *)
Theorem init_keeps_stored_tickets (w : world) :
  exists ok w',
    init_ticket_db w = (Return ok, w')
    /\ (db w' = db w
        \/ (tickets (db w) = None /\ db w' = set_tickets [] (db w)))
    /\ (ok = true -> is_Some (tickets (db w'))).
Proof.
  assert (Hcreate :
    create_table_tickets (db w) = db w /\ is_Some (tickets (db w))
    \/ tickets (db w) = None
       /\ create_table_tickets (db w) = set_tickets [] (db w)).
  { unfold create_table_tickets.
    destruct (tickets (db w)) as [rows|]; [left|right]; by eauto. }
  unfold init_ticket_db, try_except, bind, get_db_connection,
    cursor_execute_ddl, conn_commit, next_fault, get_world, bind, raise, ret.
  destruct (db_faults w) as [|[|] [|[|] [|[|] fs]]] eqn:Hf;
    do 4 (cbn -[create_table_tickets]; rewrite ?Hf);
    eexists _, _; (split; [reflexivity|]); cbn -[create_table_tickets];
    (split; [|try discriminate]); try (by left);
    destruct Hcreate as [[-> Hsome]|[Hnone ->]]; try (by left);
    try (by right); try done; by eexists.
Qed.

End SetupFacts.

Module ConsoleFacts.
Import PyStr PyStrFacts Runtime DatabaseUtils RagSearch AgentTools AgentGraph.
Import Main Fixtures Notions.

(** X22. The history handed to the agent is the tail of the recorded
    conversation: its last ten messages, or all of them when there are
    fewer. *)
Theorem history_window_is_last_ten (state : ConversationState) :
  length (get_history state) = Nat.min 10 (length (history state))
  /\ exists older, history state = older ++ get_history state.
Proof.
  unfold get_history. split.
  - rewrite length_skipn. lia.
  - exists (firstn (length (history state) - 10) (history state)).
    symmetry. apply firstn_skipn.
Qed.

(** X16. On the console, a turn whose reply is the marker asks whether a
    ticket is wanted. When the user says yes and [create_support_ticket]
    fails (it returns [None]), the program still prints that the ticket
    was created, under the number [None]; the store is as the agent turn
    left it, and the loop goes on. *)
Theorem console_announces_ticket_that_failed
    (llm : string -> list BaseMessage -> steps -> plan)
    (tool_node : AgentState -> M AgentState)
    (fuel : nat) (c : console)
    (line reply : string) (rest rest1 : list string)
    (m : BaseMessage) (w1 w2 : world) :
  stdin (con_world c) = line :: rest ->
  mem (lower (strip line)) ["quit"; "exit"; "q"] = false ->
  is_conversational (strip line) || is_goodbye (strip line) = false ->
  process_graph_with_agent llm tool_node fuel (strip line)
    (get_history (conversation_state c)) (set_stdin rest (con_world c))
  = (Return (Some m), w1) ->
  strip (content m) = "___NO_INFO_FOUND___" ->
  stdin w1 = reply :: rest1 ->
  affirmative reply = true ->
  create_support_ticket "anonymous" (strip line) (set_stdin rest1 w1)
  = (Return None, w2) ->
  exists c' before,
    interaction llm tool_node fuel c = (Return (Some continue_), c')
    /\ stdout c'
       = before
         +:+ "Support ticket #None created successfully. Our support team will reach out to you soon."
         +:+ newline +:+ newline
    /\ db (con_world c') = db w1.
Proof.
  intros Hline Hquit Hconv Hrun Hmarker Hreply Hyes Hcreate.
  pose proof (TicketFacts.create_support_ticket_inv _ _ _ _ _ Hcreate) as Hdb.
  cbn in Hdb.
  unfold interaction, try_exceptP, bindP, input_prompt, bindP, call, input,
    print, print_end, retP, get_conversation_state,
    conversation_state_add_message.
  cbn [con_world conversation_state stdout].
  rewrite Hline, Hquit, Hconv. cbn [con_world conversation_state stdout].
  rewrite Hrun. cbn [con_world conversation_state stdout].
  rewrite Hmarker, String.eqb_refl. cbn [con_world conversation_state stdout].
  rewrite Hreply. unfold affirmative in Hyes. rewrite Hyes.
  cbn [con_world conversation_state stdout].
  rewrite Hcreate. cbn [con_world conversation_state stdout str_of_ticket_id default].
  eexists _, _. split; [reflexivity|]. cbn [con_world stdout].
  split; [reflexivity|done].
Qed.

Lemma console_announces_ticket_that_failed_witness :
  let c := {| con_world := world_of alice_db [true] ["my printer is on fire"; "yes"];
              conversation_state := {| history := [] |};
              stdout := EmptyString |} in
  exists c' before,
    interaction clueless_model prebuilt_tool_node 3 c
    = (Return (Some continue_), c')
    /\ stdout c'
       = before
         +:+ "Support ticket #None created successfully. Our support team will reach out to you soon."
         +:+ newline +:+ newline
    /\ db (con_world c') = db (world_of alice_db [true] ["yes"]).
Proof.
  apply (console_announces_ticket_that_failed clueless_model prebuilt_tool_node 3
           {| con_world := world_of alice_db [true] ["my printer is on fire"; "yes"];
              conversation_state := {| history := [] |};
              stdout := EmptyString |}
           "my printer is on fire" "yes" ["yes"] []
           (ai "___NO_INFO_FOUND___")
           (world_of alice_db [true] ["yes"])
           (world_of alice_db [] [])).
  - reflexivity.
  - reflexivity.
  - reflexivity.
  - reflexivity.
  - reflexivity.
  - reflexivity.
  - reflexivity.
  - reflexivity.
Defined.

End ConsoleFacts.

Module FrontendFacts.
Import PyStr PyStrFacts Runtime AgentTools AgentGraph Api ApiFacts Frontend.
Import Notions.
Import Fixtures.
Local Open Scope py_scope.

Section Served.
Variable llm : string -> list BaseMessage -> steps -> plan.
Variable tool_node : AgentState -> M AgentState.

(** X17. A greeting typed into the web page comes back with the user's
    text twice in the history of the session: the page appends it before
    it sends the history, and the endpoint appends it again. *)
Theorem greeting_is_stored_twice
    (fuel : nat) (prompt : string) (session : list Message) (w : world) :
  is_conversational prompt || is_goodbye prompt = true ->
  on_prompt (served llm tool_node fuel) prompt session w
  = (Return (Some
       {| session_history :=
            List.filter (fun msg => String.eqb (m_type msg) "human"
                                    || String.eqb (m_type msg) "ai") session
            ++ [ {| m_content := prompt; m_type := "human" |};
                 {| m_content := prompt; m_type := "human" |};
                 {| m_content := handle_conversational_query prompt;
                    m_type := "ai" |} ];
          error := None;
          markdown := handle_conversational_query prompt |}), w).
Proof.
  intros Hconv. unfold on_prompt, served, bind.
  rewrite direct_reply by exact Hconv.
  cbn [option_map ret user_input conversation_history agent_response
       updated_conversation_history].
  rewrite List.filter_app, <- app_assoc. reflexivity.
Qed.

(** X18. A prompt that is neither a greeting nor a goodbye never shows an
    answer of the agent on the web page: whenever the request is served,
    the page shows the connection error with the status 500, an empty
    reply, and the session keeps the history with only the user's text
    added. *)
Theorem agent_prompt_shows_connection_error
    (fuel : nat) (prompt : string) (session : list Message)
    (w w' : world) (r : rendered) :
  is_conversational prompt = false -> is_goodbye prompt = false ->
  on_prompt (served llm tool_node fuel) prompt session w = (Return (Some r), w') ->
  r = {| session_history :=
           session ++ [{| m_content := prompt; m_type := "human" |}];
         error := Some (could_not_connect http_error_500);
         markdown := EmptyString |}.
Proof.
  intros Hconv Hbye. unfold on_prompt, served, bind, chat_with_agent, try_except.
  cbn [user_input conversation_history]. rewrite Hconv, Hbye. cbn [orb].
  unfold bind, subscript_last, raise, ret.
  destruct (process_graph_with_agent _ _ _ _ _ w) as [[[m|]|e] w1];
    cbn [option_map]; intros [= <-]; try done.
Qed.

End Served.

Lemma greeting_is_stored_twice_witness :
  on_prompt (served ticket_model prebuilt_tool_node 0) "hello" []
    (world_of alice_db [] [])
  = (Return (Some
       {| session_history :=
            [ {| m_content := "hello"; m_type := "human" |};
              {| m_content := "hello"; m_type := "human" |};
              {| m_content := handle_conversational_query "hello";
                 m_type := "ai" |} ];
          error := None;
          markdown := handle_conversational_query "hello" |}),
     world_of alice_db [] []).
Proof.
  apply (greeting_is_stored_twice ticket_model prebuilt_tool_node 0 "hello" []
           (world_of alice_db [] [])).
  reflexivity.
Defined.

Lemma agent_prompt_shows_connection_error_witness :
  {| session_history := [{| m_content := "my printer is on fire"; m_type := "human" |}];
     error := Some "Could not connect to the agent backend. Please ensure it is running. Error: 500 Server Error: Internal Server Error for url: http://127.0.0.1:8000/chat";
     markdown := EmptyString |}
  = {| session_history :=
         [] ++ [{| m_content := "my printer is on fire"; m_type := "human" |}];
       error := Some (could_not_connect http_error_500);
       markdown := EmptyString |}.
Proof.
  apply (agent_prompt_shows_connection_error ticket_model prebuilt_tool_node 3
           "my printer is on fire" []
           (world_of alice_db [] ["no"; "no"]) (world_of alice_db [] [])).
  - reflexivity.
  - reflexivity.
  - reflexivity.
Defined.

End FrontendFacts.

(* --------------------------------------------------------------------- *)
(** ** Where the answers of the structured lookup come from *)
(* --------------------------------------------------------------------- *)

Module SourceFacts.
Import PyStr Runtime DatabaseUtils AgentTools MonadFacts Notions.
Local Open Scope py_scope.

(** *** Calls that leave the store alone *)

Lemma keeps_db_ret {A} (a : A) : keeps_db (ret a).
Proof. done. Qed.

Lemma keeps_db_raise {A} e : keeps_db (@raise A e).
Proof. done. Qed.

Lemma keeps_db_bind {A B} (m : M A) (k : A -> M B) :
  keeps_db m -> (forall a, keeps_db (k a)) -> keeps_db (bind m k).
Proof.
  intros Hm Hk w. unfold bind. specialize (Hm w).
  destruct (m w) as [[a|e] w1]; cbn in *; [|done]. by rewrite Hk.
Qed.

Lemma keeps_db_try_except {A} (body : M A) handler :
  keeps_db body -> (forall e, keeps_db (handler e)) ->
  keeps_db (try_except body handler).
Proof.
  intros Hb Hh w. unfold try_except. specialize (Hb w).
  destruct (body w) as [[a|e] w1]; cbn in *; [done|]. by rewrite Hh.
Qed.

Lemma keeps_db_get_world : keeps_db get_world.
Proof. done. Qed.

Lemma keeps_db_next_fault : keeps_db next_fault.
Proof. intros w. unfold next_fault. by destruct (db_faults w). Qed.

Lemma keeps_db_get_db_connection : keeps_db get_db_connection.
Proof.
  apply keeps_db_bind; [apply keeps_db_next_fault|]. by intros [|].
Qed.

Lemma keeps_db_cursor_execute {A} (run : database -> outcome A) :
  keeps_db (cursor_execute run).
Proof.
  apply keeps_db_bind; [apply keeps_db_next_fault|]. intros [|]; [done|].
  apply keeps_db_bind; done.
Qed.

Ltac keeps_db_step :=
  first
    [ apply keeps_db_ret
    | apply keeps_db_raise
    | apply keeps_db_get_db_connection
    | apply keeps_db_cursor_execute
    | apply keeps_db_get_world
    | apply keeps_db_try_except
    | apply keeps_db_bind
    | match goal with
      | |- forall _, _ => intros ?
      | |- keeps_db (match ?x with _ => _ end) => destruct x
      end ].

Lemma keeps_db_query_ticket_answer q : keeps_db (query_ticket_answer q).
Proof. unfold query_ticket_answer. repeat keeps_db_step. Qed.

Lemma keeps_db_query_team_info q : keeps_db (query_team_info q).
Proof. unfold query_team_info. repeat keeps_db_step. Qed.

Lemma keeps_db_query_faq q : keeps_db (query_faq q).
Proof. unfold query_faq. cbv zeta. repeat keeps_db_step. Qed.

Lemma keeps_db_eq {A} (m : M A) w o w' :
  keeps_db m -> m w = (o, w') -> db w' = db w.
Proof. intros Hm Hrun. specialize (Hm w). by rewrite Hrun in Hm. Qed.

(** *** Inversion of a call that returned *)

Lemma bind_inv {A B} (m : M A) (k : A -> M B) w b w2 :
  bind m k w = (Return b, w2) ->
  exists a w1, m w = (Return a, w1) /\ k a w1 = (Return b, w2).
Proof.
  unfold bind. destruct (m w) as [[a|e] w1]; [|done]. by exists a, w1.
Qed.

(** The handlers of the query functions return [None]. *)
Lemma try_except_some_inv {A} (body : M (option A)) w a w' :
  try_except body
    (fun e => match e with
              | ConnectionError _ => ret None
              | _ => ret None
              end) w = (Return (Some a), w') ->
  body w = (Return (Some a), w').
Proof.
  unfold try_except. destruct (body w) as [[r|e] w1]; [done|]. by destruct e.
Qed.

Lemma cursor_execute_inv {A} (run : database -> outcome A) w a w' :
  cursor_execute run w = (Return a, w') -> run (db w) = Return a.
Proof.
  unfold cursor_execute, bind, next_fault, get_world, lift, raise.
  destruct (db_faults w) as [|[|] fs]; cbn; by intros [= -> _].
Qed.

(** *** The three sources *)

Lemma query_ticket_answer_sound question w text w' :
  query_ticket_answer question w = (Return (Some text), w') ->
  stored_ticket_response question (db w) text.
Proof.
  intros Hrun. unfold query_ticket_answer in Hrun.
  apply try_except_some_inv, bind_inv in Hrun as (u & w1 & Hconn & Hrun).
  apply bind_inv in Hrun as (result & w2 & Hsel & Hrun).
  apply cursor_execute_inv in Hsel.
  rewrite (keeps_db_eq _ _ _ _ keeps_db_get_db_connection Hconn) in Hsel.
  destruct result as [response|]; [|done]. injection Hrun as -> _.
  unfold select_ticket_answer, no_such_table in Hsel.
  destruct (tickets (db w)) as [rows|] eqn:Hrows; [|done].
  destruct (order_by _ _) as [|t sorted] eqn:Hsorted; [done|].
  injection Hsel as Hresp. exists rows, t.
  assert (Hin : In t (order_by
            (fun a b => (t_created_at b <=? t_created_at a)%N)
            (List.filter (fun t => sql_eq (db w) (t_issue t) question
                                   && bool_decide (is_Some (t_response t)))
                         rows))) by (rewrite Hsorted; by left).
  apply LookupClaims.order_by_In, filter_In in Hin as [Hin Hkeep].
  apply andb_true_iff in Hkeep as [Hissue _]. done.
Qed.

Lemma faq_text_sound pq pa w text w' :
  bind (cursor_execute (select_faq_text pq pa))
       (fun result => match result with
                      | Some r => ret (Some (fq_answer r))
                      | None => ret None
                      end) w = (Return (Some text), w') ->
  stored_faq_answer (db w) text.
Proof.
  intros Hrun. apply bind_inv in Hrun as (result & w1 & Hsel & Hrun).
  apply cursor_execute_inv in Hsel.
  destruct result as [r|]; [|done]. injection Hrun as <- _.
  unfold select_faq_text, no_such_table in Hsel.
  destruct (faq (db w)) as [rows|] eqn:Hrows; [|done]. injection Hsel as Hhead.
  exists rows, r. split; [done|]. split; [|done].
  destruct (order_by _ _) as [|r0 sorted] eqn:Hsorted; [done|].
  injection Hhead as ->.
  assert (Hin : In r (r :: sorted)) by by left.
  rewrite <- Hsorted in Hin.
  by apply LookupClaims.order_by_In, filter_In in Hin as [Hin _].
Qed.

Lemma In_firstn {A} (x : A) n l : In x (List.firstn n l) -> In x l.
Proof.
  intros H. rewrite <- (firstn_skipn n l). apply in_or_app. by left.
Qed.

Lemma select_faq_keywords_sound params d r results :
  select_faq_keywords params d = Return (r :: results) ->
  exists rows, faq d = Some rows /\ In r rows.
Proof.
  unfold select_faq_keywords, no_such_table.
  destruct (faq d) as [rows|] eqn:Hrows; [|done].
  destruct params as [|p0 [|p1 conditions]]; [done|done|].
  intros [= Hsel]. exists rows. split; [done|].
  assert (Hin : In r (r :: results)) by by left.
  rewrite <- Hsel in Hin. apply In_firstn in Hin.
  by apply LookupClaims.order_by_In, filter_In in Hin as [Hin _].
Qed.

Lemma query_faq_sound question w text w' :
  query_faq question w = (Return (Some text), w') ->
  stored_faq_answer (db w) text.
Proof.
  intros Hrun. unfold query_faq in Hrun. cbv zeta in Hrun.
  apply try_except_some_inv, bind_inv in Hrun as (u & w1 & Hconn & Hrun).
  apply (keeps_db_eq _ _ _ _ keeps_db_get_db_connection) in Hconn.
  apply bind_inv in Hrun as (present & w2 & Hshow & Hrun).
  apply (keeps_db_eq _ _ _ _ (keeps_db_cursor_execute _)) in Hshow.
  destruct present; [|done]. cbn [negb] in Hrun.
  rewrite <- Hconn, <- Hshow.
  apply bind_inv in Hrun as (world & w2' & [= <- <-] & Hrun).
  destruct (extract_keywords _ question) as [|k ks].
  - by apply faq_text_sound in Hrun.
  - apply bind_inv in Hrun as (results & w3 & Hsel & Hrun).
    pose proof (keeps_db_eq _ _ _ _ (keeps_db_cursor_execute _) Hsel) as Hdb.
    apply cursor_execute_inv in Hsel.
    destruct results as [|r results].
    + rewrite <- Hdb. by apply faq_text_sound in Hrun.
    + injection Hrun as <- _.
      apply select_faq_keywords_sound in Hsel as (rows & Hrows & Hin).
      by exists rows, r.
Qed.

Lemma query_team_info_sound question w text w' :
  query_team_info question w = (Return (Some text), w') ->
  stored_team_record (db w) text.
Proof.
  intros Hrun. unfold query_team_info in Hrun.
  destruct (extract_name_from_question question) as [name|]; [|done].
  destruct (negb (truthy name)); [done|].
  apply try_except_some_inv, bind_inv in Hrun as (u & w1 & Hconn & Hrun).
  apply (keeps_db_eq _ _ _ _ keeps_db_get_db_connection) in Hconn.
  apply bind_inv in Hrun as (exact & w2 & Hexact & Hrun).
  pose proof (keeps_db_eq _ _ _ _ (keeps_db_cursor_execute _) Hexact) as Hdb.
  apply cursor_execute_inv in Hexact. rewrite Hconn in Hexact, Hdb.
  destruct exact as [r|].
  - injection Hrun as <- _.
    unfold select_team_exact, no_such_table in Hexact.
    destruct (teams (db w)) as [rows|] eqn:Hrows; [|done].
    injection Hexact as Hfind.
    apply find_some in Hfind as [Hin _]. by exists rows, r.
  - apply bind_inv in Hrun as (partial & w3 & Hlike & Hrun).
    apply cursor_execute_inv in Hlike. rewrite Hdb in Hlike.
    destruct partial as [r|]; [|done]. injection Hrun as <- _.
    unfold select_team_like, no_such_table in Hlike.
    destruct (teams (db w)) as [rows|] eqn:Hrows; [|done].
    injection Hlike as Hfind.
    apply find_some in Hfind as [Hin _]. by exists rows, r.
Qed.

(** One stage of [database_query_tool]. *)
Lemma return_if_found_inv (m : M (option string)) rest w r w' :
  return_if_found m rest w = (Return r, w') ->
  (exists text, m w = (Return (Some text), w')
                /\ r = {| response := text; found := true |})
  \/ (exists o w1, m w = (Return o, w1) /\ rest w1 = (Return r, w')).
Proof.
  intros Hrun. unfold return_if_found in Hrun.
  apply bind_inv in Hrun as (o & w1 & Hm & Hrun).
  destruct o as [text|]; [|right; by eauto].
  destruct (truthy text); [|right; by eauto].
  injection Hrun as <- <-. left. by eauto.
Qed.

Lemma database_query_tool_sound question w r w' :
  database_query_tool question w = (Return r, w') ->
  r = not_found
  \/ (found r = true
      /\ (stored_faq_answer (db w) (response r)
          \/ stored_team_record (db w) (response r))).
Proof.
  intros Hrun. unfold database_query_tool in Hrun.
  assert (Hfirst : keeps_db (if is_general_question question
                             then query_faq question else skipped)).
  { destruct (is_general_question question);
      [apply keeps_db_query_faq|apply keeps_db_ret]. }
  assert (Hfaq : forall w0 text w1,
            (if is_general_question question
             then query_faq question else skipped) w0 = (Return (Some text), w1)
            \/ (if negb (is_general_question question)
                then query_faq question else skipped) w0 = (Return (Some text), w1) ->
            stored_faq_answer (db w0) text).
  { intros w0 text w1.
    destruct (is_general_question question); cbn [negb]; intros [H|H];
      try done; by apply query_faq_sound in H. }
  apply return_if_found_inv in Hrun
    as [(text & Hm & ->)|(o1 & w1 & Hm1 & Hrun)].
  { right. split; [done|]. left. cbn. eapply Hfaq. by left. }
  apply (keeps_db_eq _ _ _ _ Hfirst) in Hm1.
  apply return_if_found_inv in Hrun
    as [(text & Hm & ->)|(o2 & w2 & Hm2 & Hrun)].
  { right. split; [done|]. right. cbn. rewrite <- Hm1.
    by apply query_team_info_sound in Hm. }
  apply (keeps_db_eq _ _ _ _ (keeps_db_query_team_info _)) in Hm2.
  apply return_if_found_inv in Hrun
    as [(text & Hm & ->)|(o3 & w3 & Hm3 & Hrun)].
  { right. split; [done|]. left. cbn. rewrite <- Hm1, <- Hm2.
    eapply Hfaq. by right. }
  left. by injection Hrun as <- _.
Qed.

Lemma keeps_db_database_query_tool q : keeps_db (database_query_tool q).
Proof.
  unfold database_query_tool, return_if_found, skipped.
  repeat first
    [ apply keeps_db_query_faq | apply keeps_db_query_team_info
    | keeps_db_step
    | match goal with
      | |- keeps_db (if ?b then _ else _) => destruct b
      end ].
Qed.

Lemma keeps_db_query_database_tool q : keeps_db (query_database_tool q).
Proof.
  unfold query_database_tool.
  repeat first
    [ apply keeps_db_query_ticket_answer | apply keeps_db_database_query_tool
    | keeps_db_step
    | match goal with
      | |- keeps_db (if ?b then _ else _) => destruct b
      end ].
Qed.

(** X19. The structured lookup reads the store and never writes it, and
    it makes nothing up: the text it returns is the marker, or the
    response of a stored ticket whose issue equals the question for the
    server, or the answer of a stored FAQ entry, or the name and the
    biography of a stored team member. *)
Theorem lookup_answers_come_from_the_store
    (question text : string) (w w' : world) :
  query_database_tool question w = (Return text, w') ->
  db w' = db w
  /\ (text = NO_INFO_FOUND
      \/ stored_ticket_response question (db w) text
      \/ stored_faq_answer (db w) text
      \/ stored_team_record (db w) text).
Proof.
  intros Hrun.
  split; [exact (keeps_db_eq _ _ _ _ (keeps_db_query_database_tool _) Hrun)|].
  unfold query_database_tool in Hrun.
  rewrite LookupClaims.try_except_returns_eq in Hrun.
  2:{ apply returns_bind; [apply query_ticket_answer_returns|].
      intros [a|]; [destruct (truthy a)|]; auto with returns;
        (apply returns_bind; [apply database_query_tool_returns|]);
        intros r; destruct (found r); apply returns_ret. }
  apply bind_inv in Hrun as (ticket_answer & w1 & Hticket & Hrun).
  pose proof (keeps_db_eq _ _ _ _ (keeps_db_query_ticket_answer _) Hticket)
    as Hdb.
  assert (Htool : forall w2,
            bind (database_query_tool question)
                 (fun result => if found result then ret (response result)
                                else ret NO_INFO_FOUND) w1 = (Return text, w2) ->
            text = NO_INFO_FOUND
            \/ stored_faq_answer (db w) text \/ stored_team_record (db w) text).
  { intros w2 H. apply bind_inv in H as (r & w3 & Htool & H).
    apply database_query_tool_sound in Htool as [->|[Hfound Hfrom]].
    - left. by injection H as <- _.
    - rewrite Hfound in H. injection H as <- _. right. by rewrite <- Hdb. }
  destruct ticket_answer as [a|].
  - destruct (truthy a).
    + injection Hrun as <- _. right. left.
      by apply query_ticket_answer_sound in Hticket.
    + apply Htool in Hrun. tauto.
  - apply Htool in Hrun. tauto.
Qed.

Lemma lookup_answers_come_from_the_store_witness :
  let w := Fixtures.world_of Fixtures.alice_db [] [] in
  db w = db w
  /\ ("Alice: Support lead" = NO_INFO_FOUND
      \/ stored_ticket_response "who is alice" (db w) "Alice: Support lead"
      \/ stored_faq_answer (db w) "Alice: Support lead"
      \/ stored_team_record (db w) "Alice: Support lead").
Proof.
  apply (lookup_answers_come_from_the_store "who is alice"
           "Alice: Support lead"
           (Fixtures.world_of Fixtures.alice_db [] [])
           (Fixtures.world_of Fixtures.alice_db [] [])).
  reflexivity.
Defined.

End SourceFacts.

(* --------------------------------------------------------------------- *)
(** ** What a scan of the documents directory reports *)
(* --------------------------------------------------------------------- *)

Module ScanFacts.
Import PyStr PyStrFacts RagTracker KeyFacts TrackerFacts Fixtures.

Lemma append_inv_head (a b c : string) : a +:+ b = a +:+ c -> b = c.
Proof.
  induction a as [|x a IH]; [done|]. rewrite !append_cons. intros [= H]. auto.
Qed.

Lemma path_join_inj dir n1 n2 : path_join dir n1 = path_join dir n2 -> n1 = n2.
Proof. unfold path_join. intros H. by do 2 apply append_inv_head in H. Qed.

Section WithHash.
Variable md5 : string -> string.

Lemma marks_inv t n e :
  marks md5 t n e = true ->
  exists data, e = RegularFile data true
               /\ mem (lower (splitext_ext n)) supported_extensions = true.
Proof.
  unfold marks, fingerprint.
  destruct (mem _ supported_extensions); [|done].
  destruct e as [|data [|]]; try done. intros _. by exists data.
Qed.

Lemma marked_elem_of t l p :
  p ∈ flat_map (fun '(n, e) =>
                  if marks md5 t n e then [path_join DOCUMENTS_DIR n] else []) l ->
  exists n e, (n, e) ∈ l /\ marks md5 t n e = true
              /\ p = path_join DOCUMENTS_DIR n.
Proof.
  induction l as [|[n e] l IH]; cbn [flat_map]; [by intros ?%elem_of_nil|].
  rewrite elem_of_app. intros [Hp|Hp].
  - destruct (marks md5 t n e) eqn:Hm; [|by apply elem_of_nil in Hp].
    apply list_elem_of_singleton in Hp. exists n, e.
    split; [apply elem_of_cons; by left|done].
  - destruct (IH Hp) as (n' & e' & Hin & Hm & ->). exists n', e'.
    split; [apply elem_of_cons; by right|done].
Qed.

Lemma marked_NoDup t l :
  NoDup l.*1 ->
  NoDup (flat_map (fun '(n, e) =>
                     if marks md5 t n e then [path_join DOCUMENTS_DIR n] else [])
                  l).
Proof.
  induction l as [|[n e] l IH]; cbn [flat_map]; [constructor|].
  rewrite fmap_cons. intros Hnd. apply NoDup_cons in Hnd as [Hfresh Hnd].
  apply NoDup_app. split; [|split; [|by apply IH]].
  - destruct (marks md5 t n e); [apply NoDup_singleton|constructor].
  - intros p Hp Hp'. destruct (marks md5 t n e); [|by apply elem_of_nil in Hp].
    apply list_elem_of_singleton in Hp as ->.
    apply marked_elem_of in Hp' as (n' & e' & Hin & _ & Heq).
    apply path_join_inj in Heq as <-.
    apply Hfresh. apply list_elem_of_fmap. by exists (n, e').
Qed.

(** X20. A scan reports no path twice, and every path it reports is
    [documents/<name>] for a name of the directory that has a supported
    extension and stands for a regular file that can be read: neither a
    sub-directory nor a file of another type nor an unreadable file is
    ever reported. *)
Theorem scan_reports_distinct_supported_files (fs : filesystem) :
  NoDup (get_new_or_modified_documents md5 fs).1
  /\ forall p, p ∈ (get_new_or_modified_documents md5 fs).1 ->
       exists d n data,
         documents fs = Some d
         /\ d !! n = Some (RegularFile data true)
         /\ mem (lower (splitext_ext n)) supported_extensions = true
         /\ p = path_join DOCUMENTS_DIR n.
Proof.
  unfold get_new_or_modified_documents.
  destruct (documents fs) as [d|]; cbn [fst];
    [|split; [constructor|by intros p ?%elem_of_nil]].
  rewrite scan_fold. cbn [app]. split.
  - apply marked_NoDup, NoDup_fst_map_to_list.
  - intros p Hp. apply marked_elem_of in Hp as (n & e & Hin & Hm & ->).
    apply elem_of_map_to_list in Hin.
    apply marks_inv in Hm as (data & -> & Hext). by exists d, n, data.
Qed.

(** X21. Without a usable tracker file (none, or one that cannot be
    parsed) every readable document with a supported extension counts as
    new: the scan reports it. *)
Theorem unreadable_tracker_marks_every_document
    (fs : filesystem) (d : gmap string dir_entry) (n data : string) :
  tracker_json fs = NoTrackerFile \/ tracker_json fs = BrokenTrackerFile ->
  documents fs = Some d ->
  d !! n = Some (RegularFile data true) ->
  mem (lower (splitext_ext n)) supported_extensions = true ->
  md5 data <> EmptyString ->
  path_join DOCUMENTS_DIR n ∈ (get_new_or_modified_documents md5 fs).1.
Proof.
  intros Htracker Hd Hn Hext Hmd5.
  unfold get_new_or_modified_documents. rewrite Hd. cbn [fst].
  rewrite scan_fold. cbn [app].
  assert (Hempty : load_document_tracker fs = ∅).
  { unfold load_document_tracker. by destruct Htracker as [-> | ->]. }
  rewrite Hempty. apply list_elem_of_In, in_flat_map.
  exists (n, RegularFile data true). split.
  - apply list_elem_of_In. by apply elem_of_map_to_list.
  - unfold marks, fingerprint. rewrite Hext. cbn.
    destruct (md5 data) eqn:E; [done|]. cbn. rewrite lookup_empty. by left.
Qed.

End WithHash.

(** A directory with one document and one sub-directory, never scanned
    before: the document is reported. *)
Lemma scan_reports_distinct_supported_files_witness :
  exists d n data,
    documents {| documents := Some {[ "policy.txt" := RegularFile "short" true;
                                      "drafts.txt" := Subdir ]};
                 tracker_json := NoTrackerFile |} = Some d
    /\ d !! n = Some (RegularFile data true)
    /\ mem (lower (splitext_ext n)) supported_extensions = true
    /\ "documents/policy.txt" = path_join DOCUMENTS_DIR n.
Proof.
  apply (proj2 (scan_reports_distinct_supported_files toy_md5
                  {| documents := Some {[ "policy.txt" := RegularFile "short" true;
                                          "drafts.txt" := Subdir ]};
                     tracker_json := NoTrackerFile |})
               "documents/policy.txt").
  assert (E : (get_new_or_modified_documents toy_md5
                 {| documents := Some {[ "policy.txt" := RegularFile "short" true;
                                         "drafts.txt" := Subdir ]};
                    tracker_json := NoTrackerFile |}).1
              = ["documents/policy.txt"]) by (vm_compute; reflexivity).
  rewrite E. by apply list_elem_of_singleton.
Defined.

Lemma unreadable_tracker_marks_every_document_witness :
  path_join DOCUMENTS_DIR "policy.txt"
  ∈ (get_new_or_modified_documents toy_md5
       {| documents := Some {[ "policy.txt" := RegularFile "short" true ]};
          tracker_json := BrokenTrackerFile |}).1.
Proof.
  apply (unreadable_tracker_marks_every_document toy_md5
           {| documents := Some {[ "policy.txt" := RegularFile "short" true ]};
              tracker_json := BrokenTrackerFile |}
           {[ "policy.txt" := RegularFile "short" true ]} "policy.txt" "short").
  - by right.
  - reflexivity.
  - reflexivity.
  - reflexivity.
  - discriminate.
Defined.

End ScanFacts.
